(** * habitfrontend: countdown arithmetic, API client and optimistic toggle

    A shallow embedding of three pieces of the client:
    - [src/utils/timeUtils.ts]: the countdown decomposition, its formatting
      and the urgency colour;
    - the [ApiClient] class of [lib/api.ts]: token storage and [request];
    - the habit-completion mutation of [src/pages/HabitsPage.tsx]:
      [onMutate], [onError], [onSettled] and the value of [today].

    JavaScript numbers that hold millisecond timestamps and whole counts are
    integers [Z]; strings are [string]; [undefined] is [None]. Arrays that the
    query cache hands out by reference live in an explicit heap, so that
    sharing between the cache and a saved snapshot is visible. *)

From Stdlib Require Import ZArith Lia Ascii Sorted.
From stdpp Require Import base option list strings pretty gmap.

Local Open Scope Z_scope.

(** ** src/utils/timeUtils.ts *)

Module TimeUtils.

Record TimeRemaining := mkTimeRemaining {
  days : Z;
  hours : Z;
  minutes : Z;
  seconds : Z;
  isOverdue : bool;
  totalMinutes : Z
}.

(** *** date-fns, on millisecond timestamps

    [differenceInMinutes] and [differenceInSeconds] divide the millisecond
    difference and round towards zero (the default rounding method);
    [isPast d] compares [d] with a fresh reading of the clock. *)

Definition differenceInMilliseconds (dateLeft dateRight : Z) : Z :=
  dateLeft - dateRight.

Definition differenceInMinutes (dateLeft dateRight : Z) : Z :=
  Z.quot (differenceInMilliseconds dateLeft dateRight) 60000.

Definition differenceInSeconds (dateLeft dateRight : Z) : Z :=
  Z.quot (differenceInMilliseconds dateLeft dateRight) 1000.

Definition isPast (date clock : Z) : bool := date <? clock.

(** [`${n}`] for a whole number [n] of fewer than 22 digits, as every
    field of a countdown between two dates is. *)
Definition show (n : Z) : string := pretty n.

(** [calculateTimeRemaining(deadline)].  The function reads the clock twice:
    [now] is [new Date()] on its first line, [clock] is the reading taken
    inside [isPast] one statement later.  [deadlineDate] is the instant
    that [new Date(deadline)] denotes.  [%] is JavaScript's remainder
    ([Z.rem], sign of the dividend) and [Math.floor (a / b)] is [a / b]. *)
Definition calculateTimeRemaining (now clock deadlineDate : Z) : TimeRemaining :=
  if isPast deadlineDate clock then
    {| days := 0; hours := 0; minutes := 0; seconds := 0;
       isOverdue := true; totalMinutes := 0 |}
  else
    let totalMinutes := differenceInMinutes deadlineDate now in
    let days := totalMinutes / (24 * 60) in
    let hours := Z.rem totalMinutes (24 * 60) / 60 in
    let minutes := Z.rem totalMinutes 60 in
    let seconds := Z.rem (differenceInSeconds deadlineDate now) 60 in
    {| days := days; hours := hours; minutes := minutes; seconds := seconds;
       isOverdue := false; totalMinutes := totalMinutes |}.

Definition formatTimeRemaining (timeRemaining : TimeRemaining) : string :=
  if isOverdue timeRemaining then "Overdue"
  else if 0 <? days timeRemaining then
    if days timeRemaining =? 1 then
      show (hours timeRemaining) +:+ "h " +:+ show (minutes timeRemaining) +:+ "m"
    else
      show (days timeRemaining) +:+ "d " +:+ show (hours timeRemaining) +:+ "h"
  else if 0 <? hours timeRemaining then
    show (hours timeRemaining) +:+ "h " +:+ show (minutes timeRemaining) +:+ "m"
  else if 0 <? minutes timeRemaining then
    show (minutes timeRemaining) +:+ "m " +:+ show (seconds timeRemaining) +:+ "s"
  else
    show (seconds timeRemaining) +:+ "s".

Definition getTimeUrgencyColor (timeRemaining : TimeRemaining) : string :=
  if isOverdue timeRemaining then "text-red-500"
  else if totalMinutes timeRemaining <=? 60 then "text-red-500"
  else if totalMinutes timeRemaining <=? 24 * 60 then "text-orange-500"
  else if totalMinutes timeRemaining <=? 3 * 24 * 60 then "text-yellow-600"
  else "text-green-600".

Inductive BadgeVariant := destructive | default_variant | secondary.

Definition getUrgencyBadgeVariant (timeRemaining : TimeRemaining) : BadgeVariant :=
  if isOverdue timeRemaining || (totalMinutes timeRemaining <=? 60) then destructive
  else if totalMinutes timeRemaining <=? 24 * 60 then default_variant
  else secondary.

(** The formatting policy as the specification words it, to compare
    [formatTimeRemaining] with: overdue; exactly one day; more than one day;
    no day but at least one hour; no day, no hour but at least one minute;
    otherwise seconds. *)
Definition formatTimeRemaining_spec (timeRemaining : TimeRemaining) : string :=
  if isOverdue timeRemaining then "Overdue"
  else if days timeRemaining =? 1 then
    show (hours timeRemaining) +:+ "h " +:+ show (minutes timeRemaining) +:+ "m"
  else if 1 <? days timeRemaining then
    show (days timeRemaining) +:+ "d " +:+ show (hours timeRemaining) +:+ "h"
  else if (days timeRemaining =? 0) && (1 <=? hours timeRemaining) then
    show (hours timeRemaining) +:+ "h " +:+ show (minutes timeRemaining) +:+ "m"
  else if (days timeRemaining =? 0) && (hours timeRemaining =? 0)
          && (1 <=? minutes timeRemaining) then
    show (minutes timeRemaining) +:+ "m " +:+ show (seconds timeRemaining) +:+ "s"
  else
    show (seconds timeRemaining) +:+ "s".

(** The fields are counts: no field is negative. *)
Definition counts (t : TimeRemaining) : Prop :=
  0 <= days t /\ 0 <= hours t /\ 0 <= minutes t /\ 0 <= seconds t
  /\ 0 <= totalMinutes t.

End TimeUtils.

(** ** The browser around the code *)

Module Browser.

(** [RequestInit], as far as the client fills it. *)
Record RequestInit := mkRequestInit {
  method : option string;
  headers : option (list (string * string));
  body : option string
}.

(** What the page does to the outside, in program order. *)
Inductive Effect :=
| ConsoleLog (line : string)
| ConsoleError (line : string)
| Fetch (url : string) (config : RequestInit)
| CancelQueries (queryKey : list string)
| InvalidateQueries (queryKey : list string)
| Confetti.

(** Local storage as the page sees it: either every access throws (storage
    blocked for the origin), or it holds at most one value under the key
    ['auth_token']. *)
Inductive LocalStorage :=
| StorageBlocked
| Storage (auth_token : option string).

(** [None] stands for a thrown exception. *)
Definition getItem (s : LocalStorage) : option (option string) :=
  match s with
  | StorageBlocked => None
  | Storage v => Some v
  end.


Definition removeItem (s : LocalStorage) : option LocalStorage :=
  match s with
  | StorageBlocked => None
  | Storage _ => Some (Storage None)
  end.

(** The token a later page load could read back. *)
Definition persisted (s : LocalStorage) : option string :=
  match s with
  | StorageBlocked => None
  | Storage v => v
  end.

(** A parsed JSON body that is an object: its [message] property where
    that is a string, [None] where the object has none, and the rest of
    it.  Bodies that are not objects ([null], a number) and [message]
    properties that are not strings are outside this type. *)
Record Json := mkJson {
  message : option string;
  payload : string
}.

Record Response := mkResponse {
  status : Z;
  statusText : string;
  json : option Json        (* [None]: [response.json()] rejects *)
}.

(** [response.ok]: the status is in the range 200-299. *)
Definition ok (r : Response) : bool :=
  (200 <=? status r) && (status r <=? 299).

Inductive FetchResult :=
| NetworkError (reason : string)
| Responded (r : Response).

(** How an [async] function settles. *)
Inductive Settled (T : Type) :=
| Resolved (data : T)
| Rejected (error : string).
Arguments Resolved {T} data.
Arguments Rejected {T} error.

(** A string is truthy when it is not empty. *)
Definition truthy (s : option string) : bool :=
  match s with
  | Some (String _ _) => true
  | _ => false
  end.

Definition dquote : string := String "034"%char EmptyString.

End Browser.

(** ** lib/api.ts: the [ApiClient] class *)

Module Api.
Import Browser.

(** The mutable state reachable from an [ApiClient]: its private [token]
    field, the local storage, and the effects performed so far (oldest
    first). *)
Record State := mkState {
  token : option string;
  localStorage : LocalStorage;
  effects : list Effect
}.

Definition emit (e : Effect) (st : State) : State :=
  {| token := token st; localStorage := localStorage st;
     effects := effects st ++ [e] |}.

Definition constructor (storage : LocalStorage) : State :=
  {| token := match getItem storage with
              | Some v => v
              | None => None
              end;
     localStorage := storage;
     effects := [] |}.


Definition removeToken (st : State) : State :=
  let st1 := {| token := None; localStorage := localStorage st;
                effects := effects st |} in
  match removeItem (localStorage st1) with
  | Some storage' =>
      {| token := token st1; localStorage := storage'; effects := effects st1 |}
  | None => emit (ConsoleError "Failed to remove token from localStorage:") st1
  end.

(** The [config] object that [request] builds: the headers literal is
    replaced by [options.headers] when [options] has one, since [...options]
    is spread last. *)
Definition config_of (options : RequestInit) (st : State) : RequestInit :=
  let merged :=
    [("Content-Type", "application/json")]
    ++ (match token st with
        | Some (String c t) => [("Authorization", "Bearer " +:+ String c t)]
        | _ => []
        end)
    ++ from_option id [] (headers options) in
  {| method := method options;
     headers := match headers options with
                | Some h => Some h
                | None => Some merged
                end;
     body := body options |}.

Section Request.

Variable baseUrl : string.
(** The network: what [fetch(url, config)] settles to. *)
Variable fetch : string -> RequestInit -> FetchResult.

Definition request (endpoint : string) (options : RequestInit) (st : State)
  : State * Settled Json :=
  let url := baseUrl +:+ endpoint in
  let config := config_of options st in
  let st := emit (ConsoleLog "API Request:") st in
  let st := emit (Fetch url config) st in
  match fetch url config with
  | NetworkError reason => (st, Rejected reason)
  | Responded response =>
      let st := emit (ConsoleLog "API Response:") st in
      let data :=
        match json response with
        | Some d => d
        | None => {| message := Some "Server error"; payload := "" |}
        end in
      if negb (ok response) then
        let st := emit (ConsoleLog "API Error:") st in
        let st :=
          if (status response =? 401) || (status response =? 403) then
            removeToken
              (emit (ConsoleLog "Removing invalid token due to auth error") st)
          else st in
        (st, Rejected (if truthy (message data)
                       then from_option id "" (message data)
                       else "An error occurred"))
      else
        (emit (ConsoleLog "API Data:") st, Resolved data)
  end.

(** [JSON.stringify({date, completed})], for a date without characters
    that need escaping. *)
Definition stringify_completion (date : string) (completed : bool) : string :=
  "{" +:+ dquote +:+ "date" +:+ dquote +:+ ":" +:+ dquote +:+ date +:+ dquote
  +:+ "," +:+ dquote +:+ "completed" +:+ dquote +:+ ":"
  +:+ (if completed then "true" else "false") +:+ "}".

Definition completeHabit (habitId date : string) (completed : bool) (st : State)
  : State * Settled Json :=
  request ("/habits/" +:+ habitId +:+ "/complete")
          {| method := Some "POST"; headers := None;
             body := Some (stringify_completion date completed) |} st.

End Request.

End Api.

(** ** JavaScript dates *)

Module JsDate.

Definition msPerDay : Z := 86400000.

(** Year, month (1-12) and day of month of a day number counted from
    1970-01-01, in the proleptic Gregorian calendar. *)
Definition civil_from_days (day : Z) : Z * Z * Z :=
  let z := day + 719468 in
  let era := z / 146097 in
  let doe := z - era * 146097 in
  let yoe := (doe - doe / 1460 + doe / 36524 - doe / 146096) / 365 in
  let doy := doe - (365 * yoe + yoe / 4 - yoe / 100) in
  let mp := (5 * doy + 2) / 153 in
  let d := doy - (153 * mp + 2) / 5 + 1 in
  let m := if mp <? 10 then mp + 3 else mp - 9 in
  let y := yoe + era * 400 + (if m <=? 2 then 1 else 0) in
  (y, m, d).

Fixpoint zeros (n : nat) : string :=
  match n with
  | O => EmptyString
  | S n' => String "0"%char (zeros n')
  end.

(** Decimal digits of a non-negative [n], padded with zeros on the left to
    at least [width] characters. *)
Definition pad (width : nat) (n : Z) : string :=
  let digits := pretty n in
  zeros (width - String.length digits) +:+ digits.

Definition year_string (y : Z) : string :=
  if (0 <=? y) && (y <=? 9999) then pad 4 y
  else if y <? 0 then "-" +:+ pad 6 (- y)
  else "+" +:+ pad 6 y.

Definition date_string (y m d : Z) : string :=
  year_string y +:+ "-" +:+ pad 2 m +:+ "-" +:+ pad 2 d.

(** [Date.prototype.toISOString]: the UTC fields of the time value [t]
    (milliseconds since the epoch), as [YYYY-MM-DDTHH:mm:ss.sssZ]. *)
Definition toISOString (t : Z) : string :=
  let '(y, m, d) := civil_from_days (t / msPerDay) in
  let r := t mod msPerDay in
  date_string y m d +:+ "T"
  +:+ pad 2 (r / 3600000) +:+ ":" +:+ pad 2 ((r / 60000) mod 60) +:+ ":"
  +:+ pad 2 ((r / 1000) mod 60) +:+ "." +:+ pad 3 (r mod 1000) +:+ "Z".

(** [s.split(sep)] for a one-character separator. *)
Fixpoint split (sep : ascii) (s : string) : list string :=
  match s with
  | EmptyString => [EmptyString]
  | String c s' =>
      if Ascii.eqb c sep then EmptyString :: split sep s'
      else match split sep s' with
           | piece :: rest => String c piece :: rest
           | [] => [String c EmptyString]
           end
  end.

(** [date.getUTCFullYear()] of the time value [t]. *)
Definition getUTCFullYear (t : Z) : Z :=
  fst (fst (civil_from_days (t / msPerDay))).

(** date-fns [format(date, 'yyyy-MM-dd')]: the calendar date of [t] on the
    client's own clock, which runs [utcOffset] minutes ahead of UTC.  The
    token [yyyy] prints the year of the era ([1 - y] for a year [y <= 0]),
    without a sign, padded to four digits. *)
Definition format_yyyy_MM_dd (utcOffset : Z) (t : Z) : string :=
  let '(y, m, d) := civil_from_days ((t + utcOffset * 60000) / msPerDay) in
  pad 4 (if 0 <? y then y else 1 - y) +:+ "-" +:+ pad 2 m +:+ "-" +:+ pad 2 d.

End JsDate.

(** ** src/pages/HabitsPage.tsx: the completion toggle *)

Module HabitsPage.
Import Browser.

(** A completion object in the cache.  A property that the object does not
    have is [None]: the server sends all of [HabitCompletion], an optimistic
    entry has only [completed] and [date]. *)
Record HabitCompletion := mkHabitCompletion {
  hc_id : option string;
  hc_habitId : option string;
  hc_date : option string;
  hc_completed : option bool;
  hc_value : option Z;
  hc_notes : option string;
  hc_createdAt : option string
}.

(** One element of the today-completions list. *)
Record Item := mkItem {
  habitId : string;
  completion : option HabitCompletion
}.

(** [{}] *)
Definition empty_completion : HabitCompletion :=
  {| hc_id := None; hc_habitId := None; hc_date := None; hc_completed := None;
     hc_value := None; hc_notes := None; hc_createdAt := None |}.

(** [{...c, completed}], where spreading [undefined] adds nothing. *)
Definition spread_completed (c : option HabitCompletion) (completed : bool)
  : HabitCompletion :=
  let c := from_option id empty_completion c in
  {| hc_id := hc_id c; hc_habitId := hc_habitId c; hc_date := hc_date c;
     hc_completed := Some completed;
     hc_value := hc_value c; hc_notes := hc_notes c;
     hc_createdAt := hc_createdAt c |}.

(** [{...item, completion: {...item.completion, completed}}] *)
Definition overwrite (completed : bool) (item : Item) : Item :=
  {| habitId := habitId item;
     completion := Some (spread_completed (completion item) completed) |}.

(** [{habitId, completion: {completed, date: today}}] *)
Definition new_item (today id : string) (completed : bool) : Item :=
  {| habitId := id;
     completion :=
       Some {| hc_id := None; hc_habitId := None; hc_date := Some today;
               hc_completed := Some completed; hc_value := None;
               hc_notes := None; hc_createdAt := None |} |}.

(** *** Arrays by reference

    The heap holds the arrays; an array value is its address. *)
Abbreviation Heap := (list (list Item)).

Definition contents (h : Heap) (a : nat) : list Item :=
  from_option id [] (h !! a).

(** [a.map(f)] allocates the result. *)
Definition array_map (f : Item -> Item) (a : nat) (h : Heap) : Heap * nat :=
  (h ++ [f <$> contents h a], length h).

(** [a.find(p)] *)
Definition array_find (p : Item -> bool) (a : nat) (h : Heap) : option Item :=
  List.find p (contents h a).

(** [a.push(x)] writes into the array at [a]. *)
Definition array_push (a : nat) (x : Item) (h : Heap) : Heap :=
  alter (fun l => l ++ [x]) a h.

(** *** The page's state

    [allCompletions] is the data that the query cache holds under the key
    [['all-habit-completions', today]]: [None] while the query has no
    data, else the address of the cached array. *)
Record World := mkWorld {
  api : Api.State;
  arrays : Heap;
  allCompletions : option nat
}.

Record Context := mkContext {
  previousCompletions : option nat
}.

Definition emit (e : Effect) (w : World) : World :=
  {| api := Api.emit e (api w); arrays := arrays w;
     allCompletions := allCompletions w |}.

Definition effects (w : World) : list Effect := Api.effects (api w).

(** The list a reader of the cache sees. *)
Definition cached (w : World) : option (list Item) :=
  a ← allCompletions w; arrays w !! a.

(** [const today = new Date().toISOString().split('T')[0]], evaluated when
    the page renders at time [renderedAt]. *)
Definition today (renderedAt : Z) : string :=
  hd EmptyString (JsDate.split "T" (JsDate.toISOString renderedAt)).

(** [const today = format(new Date(), 'yyyy-MM-dd')] of
    [src/components/habits/HabitCard.tsx], which posts to the same
    endpoint. *)
Definition HabitCard_today (utcOffset renderedAt : Z) : string :=
  JsDate.format_yyyy_MM_dd utcOffset renderedAt.

(** *** The query client (TanStack Query)

    [World] holds one cache entry, the one under
    [['all-habit-completions', today]]: it is the cache as the page sees it
    while the day stays the same.  [Renders] below keeps the entries of
    different days apart. *)

Definition getQueryData (w : World) : option nat := allCompletions w.

(** [setQueryData(key, value)].  The library may keep a structurally shared
    copy of [value] instead of [value] itself; a reader of the cache sees the
    same contents either way. *)
Definition setQueryData (data : nat) (w : World) : World :=
  {| api := api w; arrays := arrays w; allCompletions := Some data |}.

(** [setQueryData(key, updater)]: the updater receives the current data;
    when it returns [undefined] the cache is left as it is. *)
Definition setQueryDataWith
    (updater : option nat -> Heap -> Heap * option nat) (w : World) : World :=
  let '(h, data) := updater (allCompletions w) (arrays w) in
  {| api := api w; arrays := h;
     allCompletions := match data with
                       | Some a => Some a
                       | None => allCompletions w
                       end |}.

Section Mutation.

Variable baseUrl : string.
Variable fetch : string -> RequestInit -> FetchResult.
(** The time of the render whose closures the mutation runs, for a
    mutation that settles while [today] is still the day of that render
    ([mutate_on_one_day] below). *)
Variable renderedAt : Z.

Definition queryKey : list string :=
  ["all-habit-completions"; today renderedAt].

Definition triggerConfetti (w : World) : World := emit Confetti w.

(** [item.habitId === habitId] *)
Definition same_habit (hid : string) (item : Item) : bool :=
  String.eqb (habitId item) hid.

(** The callback of [old.map]. *)
Definition patch (hid : string) (completed : bool) (item : Item) : Item :=
  if same_habit hid item then overwrite completed item else item.

(** The arrow function given to [setQueryData] in [onMutate]. *)
Definition updater (hid : string) (completed : bool)
    (old : option nat) (h : Heap) : Heap * option nat :=
  match old with
  | None => (h, old)
  | Some a =>
      let '(h, updatedCompletions) := array_map (patch hid completed) a h in
      let h :=
        match array_find (same_habit hid) a h with
        | None =>
            array_push updatedCompletions
                       (new_item (today renderedAt) hid completed) h
        | Some _ => h
        end in
      (h, Some updatedCompletions)
  end.

(** What the array returned by [updater] holds when [old] holds [items]
    ([updater_contents] below). *)
Definition optimistic (hid : string) (completed : bool) (items : list Item)
  : list Item :=
  match List.find (same_habit hid) items with
  | None =>
      (patch hid completed <$> items)
      ++ [new_item (today renderedAt) hid completed]
  | Some _ => patch hid completed <$> items
  end.

Definition mutationFn (hid : string) (completed : bool) (w : World)
  : World * Settled Json :=
  let '(st, result) :=
    Api.completeHabit baseUrl fetch hid (today renderedAt) completed (api w) in
  ({| api := st; arrays := arrays w; allCompletions := allCompletions w |},
   result).

Definition onMutate (hid : string) (completed : bool) (w : World)
  : World * Context :=
  let w := emit (CancelQueries queryKey) w in
  let previousCompletions := getQueryData w in
  let w := setQueryDataWith (updater hid completed) w in
  let w := if completed then triggerConfetti w else w in
  (w, {| previousCompletions := previousCompletions |}).

(** [context] is [None] when [onMutate] did not return one. *)
Definition onError (context : option Context) (w : World) : World :=
  match context with
  | Some {| previousCompletions := Some a |} => setQueryData a w
  | _ => w
  end.

Definition onSettled (w : World) : World :=
  emit (InvalidateQueries ["stats"])
    (emit (InvalidateQueries ["habits"])
       (emit (InvalidateQueries queryKey) w)).

(** [completeHabitMutation.mutate({habitId, completed})], in the order in
    which [useMutation] runs the callbacks: [onMutate], then
    [mutationFn], then [onError] if it rejected, then [onSettled]. *)
Definition mutate (hid : string) (completed : bool) (w : World) : World :=
  let '(w, context) := onMutate hid completed w in
  let '(w, result) := mutationFn hid completed w in
  let w :=
    match result with
    | Rejected _ => onError (Some context) w
    | Resolved _ => w
    end in
  onSettled w.

(** [handleCompleteHabit(habitId, completed = true)] *)
Definition handleCompleteHabit (hid : string) (completed : option bool)
    (w : World) : World :=
  mutate hid (from_option id true completed) w.

End Mutation.

End HabitsPage.

(** ** src/pages/HabitsPage.tsx: the mutation across renders

    [today] is computed anew at every render, and [useMutation] hands the
    options of the latest render to a mutation that is still pending.  So
    each callback of one mutation is the closure of the render that is
    current when it runs, and it reads and writes the cache under the key
    [['all-habit-completions', today]] of that render.  Here the cache keeps
    its keys and every callback has a render time of its own. *)

Module Renders.
Import Browser HabitsPage.

(** [completions] maps a day [d] to the data held under
    [['all-habit-completions', d]], by address. *)
Record Cache := mkCache {
  api : Api.State;
  arrays : Heap;
  completions : gmap string nat
}.

Definition emit (e : Effect) (w : Cache) : Cache :=
  {| api := Api.emit e (api w); arrays := arrays w;
     completions := completions w |}.

Definition effects (w : Cache) : list Effect := Api.effects (api w).

(** The list a reader sees under the key of [day]. *)
Definition cached (day : string) (w : Cache) : option (list Item) :=
  a ← completions w !! day; arrays w !! a.

(** [getQueryData(['all-habit-completions', day])] *)
Definition getQueryData (day : string) (w : Cache) : option nat :=
  completions w !! day.

(** [setQueryData(['all-habit-completions', day], value)] *)
Definition setQueryData (day : string) (data : nat) (w : Cache) : Cache :=
  {| api := api w; arrays := arrays w;
     completions := <[day := data]> (completions w) |}.

(** [setQueryData(['all-habit-completions', day], updater)]; an updater that
    returns [undefined] leaves the cache as it is. *)
Definition setQueryDataWith (day : string)
    (updater : option nat -> Heap -> Heap * option nat) (w : Cache) : Cache :=
  let '(h, data) := updater (completions w !! day) (arrays w) in
  {| api := api w; arrays := h;
     completions := match data with
                    | Some a => <[day := a]> (completions w)
                    | None => completions w
                    end |}.

Section Mutation.

Variable baseUrl : string.
Variable fetch : string -> RequestInit -> FetchResult.

(** The callbacks as closures of the render at [renderedAt]. *)
Definition onMutate (renderedAt : Z) (hid : string) (completed : bool)
    (w : Cache) : Cache * Context :=
  let w := emit (CancelQueries (queryKey renderedAt)) w in
  let previousCompletions := getQueryData (today renderedAt) w in
  let w := setQueryDataWith (today renderedAt)
             (updater renderedAt hid completed) w in
  let w := if completed then emit Confetti w else w in
  (w, {| previousCompletions := previousCompletions |}).

Definition mutationFn (renderedAt : Z) (hid : string) (completed : bool)
    (w : Cache) : Cache * Settled Json :=
  let '(st, result) :=
    Api.completeHabit baseUrl fetch hid (today renderedAt) completed (api w) in
  ({| api := st; arrays := arrays w; completions := completions w |}, result).

Definition onError (renderedAt : Z) (context : option Context) (w : Cache)
  : Cache :=
  match context with
  | Some {| previousCompletions := Some a |} =>
      setQueryData (today renderedAt) a w
  | _ => w
  end.

Definition onSettled (renderedAt : Z) (w : Cache) : Cache :=
  emit (InvalidateQueries ["stats"])
    (emit (InvalidateQueries ["habits"])
       (emit (InvalidateQueries (queryKey renderedAt)) w)).

(** One run of the mutation: [onMutate] is the closure of the render at
    [atMutate], [mutationFn] of the one at [atRequest], [onError] of the one
    at [atError] and [onSettled] of the one at [atSettled]. *)
Definition mutate (atMutate atRequest atError atSettled : Z)
    (hid : string) (completed : bool) (w : Cache) : Cache :=
  let '(w, context) := onMutate atMutate hid completed w in
  let '(w, result) := mutationFn atRequest hid completed w in
  let w :=
    match result with
    | Rejected _ => onError atError (Some context) w
    | Resolved _ => w
    end in
  onSettled atSettled w.

End Mutation.

(** The cache as the page sees it on [day]. *)
Definition on_day (day : string) (w : Cache) : World :=
  {| HabitsPage.api := api w; HabitsPage.arrays := arrays w;
     allCompletions := completions w !! day |}.

End Renders.

(** ** src/pages/TasksPage.tsx: ordering the pending tasks *)

Module TasksPage.
Import TimeUtils.

(** A task, as far as the ordering reads it: [deadline] is the instant that
    [new Date(task.deadline)] denotes. *)
Record Task := mkTask {
  id : string;
  deadline : Z;
  completed : bool
}.

(** The body of the comparator given to [pendingTasks.sort], on the two
    records it computes. *)
Definition compare (timeA timeB : TimeRemaining) : Z :=
  if isOverdue timeA && negb (isOverdue timeB) then -1
  else if negb (isOverdue timeA) && isOverdue timeB then 1
  else if isOverdue timeA && isOverdue timeB then 0
  else totalMinutes timeA - totalMinutes timeB.

(** The comparator itself.  Each of its two calls of
    [calculateTimeRemaining] reads the clock twice. *)
Definition compareTasks (nowA clockA nowB clockB : Z) (a b : Task) : Z :=
  let timeA := calculateTimeRemaining nowA clockA (deadline a) in
  let timeB := calculateTimeRemaining nowB clockB (deadline b) in
  compare timeA timeB.

(** [sortedPendingTasks.filter(task => calculateTimeRemaining(...).isOverdue)],
    all readings of the clock falling on one instant. *)
Definition overdueTasks (now : Z) (sortedPendingTasks : list Task) : list Task :=
  List.filter (fun task => isOverdue (calculateTimeRemaining now now (deadline task)))
              sortedPendingTasks.

End TasksPage.

(** ** src/pages/HabitsPage.tsx: what the page shows *)

Module HabitsView.
Import HabitsPage.

Inductive ScheduleType := daily | weekly | specific_days.

(** A habit, as far as the grouping reads it. *)
Record Habit := mkHabit {
  id : string;
  schedule_type : ScheduleType;
  isActive : bool
}.

(** [allCompletions?.find(c => c.habitId === habitId)?.completion?.completed
    || false] *)
Definition isHabitCompletedToday (w : World) (hid : string) : bool :=
  match cached w with
  | None => false
  | Some allCompletions =>
      match List.find (same_habit hid) allCompletions with
      | None => false
      | Some item =>
          match completion item with
          | None => false
          | Some c => default false (hc_completed c)
          end
      end
  end.

(** The [queryFn] of the today-completions query, when every request of
    its [Promise.all] resolves: [resolved h] is the [data] of the body that
    the request for [h] resolved with, [None] when the body has none. *)
Definition allCompletions_queryFn (habits : option (list Habit))
    (resolved : Habit -> option (list HabitCompletion)) : list Item :=
  match habits with
  | None => []
  | Some data =>
      (fun h => {| habitId := id h; completion := resolved h ≫= head |}) <$> data
  end.

Definition is_daily (h : Habit) : bool :=
  match schedule_type h with daily => true | _ => false end.

Definition is_weekly (h : Habit) : bool :=
  match schedule_type h with weekly => true | _ => false end.

Definition dailyHabits (w : World) (filteredHabits : list Habit) : list Habit :=
  List.filter (fun h => is_daily h && isActive h
                        && negb (isHabitCompletedToday w (id h)))
              filteredHabits.

Definition weeklyHabits (w : World) (filteredHabits : list Habit) : list Habit :=
  List.filter (fun h => is_weekly h && isActive h
                        && negb (isHabitCompletedToday w (id h)))
              filteredHabits.

Definition completedHabits (w : World) (filteredHabits : list Habit) : list Habit :=
  List.filter (fun h => isActive h && isHabitCompletedToday w (id h))
              filteredHabits.

Definition archivedHabits (filteredHabits : list Habit) : list Habit :=
  List.filter (fun h => negb (isActive h)) filteredHabits.

End HabitsView.

(** ** src/contexts/AuthContext.tsx *)

Module AuthContext.
Import Browser.

(** The provider's state: the [isAuthenticated] flag, the API client with
    the storage and the effects, and the data cached under
    [['currentUser']]. *)
Record State := mkState {
  isAuthenticated : bool;
  api : Api.State;
  currentUser : option string
}.

(** [!!localStorage.getItem('auth_token')] inside [try], [false] in
    [catch]. *)
Definition hasToken (storage : LocalStorage) : bool :=
  match getItem storage with
  | Some tok => truthy tok
  | None => false
  end.

(** The initializer of [useState]. *)
Definition initialAuthenticated (storage : LocalStorage) : bool :=
  hasToken storage.

(** The page as it starts: the module-level [ApiClient] is constructed and
    the provider initializes its flag, both reading the storage. *)
Definition start (storage : LocalStorage) : State :=
  {| isAuthenticated := initialAuthenticated storage;
     api := Api.emit
              (ConsoleLog (match getItem storage with
                           | Some _ => "AuthProvider init - token exists:"
                           | None => "AuthProvider init - localStorage error:"
                           end))
              (Api.constructor storage);
     currentUser := None |}.

(** The body of [useEffect].  [user] is the data of the [['currentUser']]
    query, [error] tells whether that query is in error. *)
Definition authEffect (error : bool) (st : State) : State :=
  let has := hasToken (Api.localStorage (api st)) in
  let a := Api.emit (ConsoleLog "AuthProvider useEffect:") (api st) in
  if has then
    if error then
      {| isAuthenticated := false;
         api := Api.removeToken
                  (Api.emit (ConsoleLog "Token invalid, logging out:") a);
         currentUser := currentUser st |}
    else
      match currentUser st with
      | Some _ =>
          {| isAuthenticated := true;
             api := Api.emit (ConsoleLog "User authenticated successfully") a;
             currentUser := currentUser st |}
      | None =>
          {| isAuthenticated := isAuthenticated st; api := a;
             currentUser := currentUser st |}
      end
  else
    {| isAuthenticated := false;
       api := Api.emit
                (ConsoleLog "No token found, setting authenticated to false") a;
       currentUser := currentUser st |}.

Section Session.

Variable baseUrl : string.
Variable fetch : string -> RequestInit -> FetchResult.
(** [response.data]: the token and the user that a resolved login body
    carries, [None] when it has no [data]. *)
Variable data_of : Json -> option (string * string).


End Session.

Definition logout (st : State) : State :=
  {| isAuthenticated := false; api := Api.removeToken (api st);
     currentUser := None |}.

End AuthContext.

(** ** Characters of a string *)

Module JsString.

(** [s.includes(c)] for a single character [c]. *)
Fixpoint occurs (c : ascii) (s : string) : bool :=
  match s with
  | EmptyString => false
  | String x s' => Ascii.eqb x c || occurs c s'
  end.

End JsString.

(** * Properties *)

(** ** Countdown arithmetic *)

Section TimeUtilsFacts.
Import TimeUtils.

Lemma isPast_true date clock : isPast date clock = true <-> date < clock.
Proof. unfold isPast. apply Z.ltb_lt. Qed.

Lemma isPast_false date clock : isPast date clock = false <-> clock <= date.
Proof. unfold isPast. rewrite Z.ltb_ge. reflexivity. Qed.

(** On a duration that is not negative, rounding towards zero is rounding
    down and the remainder is the modulus. *)
Lemma differenceInMinutes_floor l r :
  r <= l -> differenceInMinutes l r = (l - r) / 60000.
Proof.
  intros H. unfold differenceInMinutes, differenceInMilliseconds.
  apply Z.quot_div_nonneg; lia.
Qed.

Lemma differenceInSeconds_floor l r :
  r <= l -> differenceInSeconds l r = (l - r) / 1000.
Proof.
  intros H. unfold differenceInSeconds, differenceInMilliseconds.
  apply Z.quot_div_nonneg; lia.
Qed.

Lemma calculateTimeRemaining_future now clock deadline :
  clock <= deadline ->
  calculateTimeRemaining now clock deadline =
    let totalMinutes := differenceInMinutes deadline now in
    {| days := totalMinutes / 1440;
       hours := Z.rem totalMinutes 1440 / 60;
       minutes := Z.rem totalMinutes 60;
       seconds := Z.rem (differenceInSeconds deadline now) 60;
       isOverdue := false;
       totalMinutes := totalMinutes |}.
Proof.
  intros H. unfold calculateTimeRemaining.
  apply isPast_false in H. rewrite H. reflexivity.
Qed.

(** Whatever the deadline, a clock that does not run backwards makes every
    field of the result a count. *)
Lemma calculateTimeRemaining_counts now clock deadline :
  now <= clock -> counts (calculateTimeRemaining now clock deadline).
Proof.
  intros Hclock. destruct (Z.lt_ge_cases deadline clock) as [Hp | Hf].
  - unfold calculateTimeRemaining. apply isPast_true in Hp. rewrite Hp.
    unfold counts; simpl; lia.
  - rewrite calculateTimeRemaining_future by assumption.
    rewrite differenceInMinutes_floor, differenceInSeconds_floor by lia.
    assert (0 <= (deadline - now) / 60000) by (apply Z.div_pos; lia).
    assert (0 <= (deadline - now) / 1000) by (apply Z.div_pos; lia).
    unfold counts; cbn [days hours minutes seconds totalMinutes].
    rewrite !Z.rem_mod_nonneg by lia.
    repeat split; try assumption.
    + apply Z.div_pos; lia.
    + apply Z.div_pos; [apply Z.mod_pos_bound|]; lia.
    + apply Z.mod_pos_bound; lia.
    + apply Z.mod_pos_bound; lia.
Qed.

Lemma append_nonempty (a b : string) : b <> EmptyString -> a +:+ b <> EmptyString.
Proof. destruct a; simpl; [tauto | discriminate]. Qed.

Lemma formatTimeRemaining_nonempty tr : formatTimeRemaining tr <> EmptyString.
Proof.
  unfold formatTimeRemaining.
  repeat match goal with
         | |- context [if ?b then _ else _] => destruct b
         end;
    try discriminate;
    repeat (apply append_nonempty; try discriminate).
Qed.

End TimeUtilsFacts.

Section TimeUtilsClaims.
Import TimeUtils.

(** C4. A deadline strictly before the evaluation time is overdue:
    [isOverdue] is true and [days], [hours], [minutes], [seconds] and
    [totalMinutes] are all 0.  This holds for the reading [clock] that
    [isPast] takes, and so, the clock not running backwards, for the reading
    [now] taken on the function's first line. *)
Theorem calculateTimeRemaining_past now clock deadline :
  let r := calculateTimeRemaining now clock deadline in
  let zeroed :=
    isOverdue r = true /\ days r = 0 /\ hours r = 0 /\ minutes r = 0
    /\ seconds r = 0 /\ totalMinutes r = 0 in
  (deadline < clock -> zeroed)
  /\ (now <= clock -> deadline < now -> zeroed).
Proof.
  intros r zeroed.
  assert (H : deadline < clock -> zeroed).
  { intros Hpast. subst zeroed r. unfold calculateTimeRemaining.
    rewrite (proj2 (isPast_true deadline clock) Hpast).
    simpl. repeat split; reflexivity. }
  split; [exact H |].
  intros Hclock Hpast. apply H. lia.
Qed.

Lemma calculateTimeRemaining_past_witness :
  let r := calculateTimeRemaining 1704103200000 1704103200004 1704099600000 in
  isOverdue r = true /\ days r = 0 /\ hours r = 0 /\ minutes r = 0
  /\ seconds r = 0 /\ totalMinutes r = 0.
Proof.
  apply (proj2 (calculateTimeRemaining_past
                  1704103200000 1704103200004 1704099600000)); lia.
Defined.

(** C5. A deadline that is not in the past, at the reading [now] and at the
    reading [clock] that [isPast] takes, is decomposed as
    [totalMinutes = floor (remaining / 1 minute)],
    [days = floor (totalMinutes / 1440)],
    [hours = floor ((totalMinutes mod 1440) / 60)],
    [minutes = totalMinutes mod 60] and
    [seconds = (remaining whole seconds) mod 60]; a deadline exactly [N > 0]
    whole minutes after [now] gives [totalMinutes = N] and
    [days * 1440 + hours * 60 + minutes = N]. *)
Theorem calculateTimeRemaining_decomposition now clock deadline :
  now <= deadline ->
  clock <= deadline ->
  let remaining := deadline - now in
  let r := calculateTimeRemaining now clock deadline in
  isOverdue r = false
  /\ totalMinutes r = remaining / 60000
  /\ days r = totalMinutes r / 1440
  /\ hours r = (totalMinutes r mod 1440) / 60
  /\ minutes r = totalMinutes r mod 60
  /\ seconds r = (remaining / 1000) mod 60
  /\ (forall N, 0 < N -> deadline = now + N * 60000 ->
      totalMinutes r = N
      /\ days r * 1440 + hours r * 60 + minutes r = N).
Proof.
  intros Hclock Hfuture remaining r. subst remaining r.
  rewrite calculateTimeRemaining_future by assumption.
  rewrite differenceInMinutes_floor, differenceInSeconds_floor by lia.
  cbn [isOverdue totalMinutes days hours minutes seconds].
  assert (Hm : 0 <= (deadline - now) / 60000) by (apply Z.div_pos; lia).
  assert (Hs : 0 <= (deadline - now) / 1000) by (apply Z.div_pos; lia).
  rewrite !Z.rem_mod_nonneg by lia.
  repeat split.
  - subst deadline. replace (now + N * 60000 - now) with (N * 60000) by lia.
    apply Z.div_mul. lia.
  - subst deadline. replace (now + N * 60000 - now) with (N * 60000) by lia.
    rewrite Z.div_mul by lia.
    pose proof (Z.div_mod N 1440 ltac:(lia)) as H1.
    pose proof (Z.div_mod (N mod 1440) 60 ltac:(lia)) as H2.
    assert (H3 : (N mod 1440) mod 60 = N mod 60).
    { symmetry. rewrite (Z.div_mod N 1440) at 1 by lia.
      replace (1440 * (N / 1440) + N mod 1440)
        with (N mod 1440 + (24 * (N / 1440)) * 60) by lia.
      apply Z.mod_add. lia. }
    lia.
Qed.

Lemma calculateTimeRemaining_decomposition_witness :
  1704103200000 <= 1704196800000 /\ 1704103200004 <= 1704196800000 /\
  let r := calculateTimeRemaining 1704103200000 1704103200004 1704196800000 in
  totalMinutes r = 1560 /\ days r * 1440 + hours r * 60 + minutes r = 1560.
Proof.
  split; [lia | split; [lia |]].
  refine (proj2 (proj2 (proj2 (proj2 (proj2 (proj2
    (calculateTimeRemaining_decomposition
       1704103200000 1704103200004 1704196800000 _ _))))))
    1560 _ _); lia.
Defined.

(** C6. [formatTimeRemaining] returns ["Overdue"] when [isOverdue];
    otherwise [{hours}h {minutes}m] when [days] is exactly 1,
    [{days}d {hours}h] when [days > 1], [{hours}h {minutes}m] when
    [days = 0] and [hours >= 1], [{minutes}m {seconds}s] when
    [days = hours = 0] and [minutes >= 1]; it is never the empty string.
    On every record that [calculateTimeRemaining] returns, whatever the
    deadline and the two readings of the clock, every remaining case gives
    [{seconds}s], and the result is that of the policy as the specification
    words it. *)
Theorem formatTimeRemaining_cases (tr : TimeRemaining) :
  let hm := show (hours tr) +:+ "h " +:+ show (minutes tr) +:+ "m" in
  let dh := show (days tr) +:+ "d " +:+ show (hours tr) +:+ "h" in
  let ms := show (minutes tr) +:+ "m " +:+ show (seconds tr) +:+ "s" in
  let s := show (seconds tr) +:+ "s" in
  (isOverdue tr = true -> formatTimeRemaining tr = "Overdue")
  /\ (isOverdue tr = false ->
      (days tr = 1 -> formatTimeRemaining tr = hm)
      /\ (days tr > 1 -> formatTimeRemaining tr = dh)
      /\ (days tr = 0 -> hours tr >= 1 -> formatTimeRemaining tr = hm)
      /\ (days tr = 0 -> hours tr = 0 -> minutes tr >= 1 ->
          formatTimeRemaining tr = ms))
  /\ formatTimeRemaining tr <> EmptyString
  /\ (forall now clock deadlineDate,
        tr = calculateTimeRemaining now clock deadlineDate ->
        (isOverdue tr = false ->
         days tr <> 1 -> ~ days tr > 1 ->
         ~ (days tr = 0 /\ hours tr >= 1) ->
         ~ (days tr = 0 /\ hours tr = 0 /\ minutes tr >= 1) ->
         formatTimeRemaining tr = s)
        /\ formatTimeRemaining tr = formatTimeRemaining_spec tr).
Proof.
  intros hm dh ms s. subst hm dh ms s.
  split; [intros Ho; unfold formatTimeRemaining; rewrite Ho; reflexivity |].
  split; [| split; [apply formatTimeRemaining_nonempty |]].
  - intros Ho.
    assert (Hfmt : formatTimeRemaining tr =
      if 0 <? days tr then
        if days tr =? 1
        then show (hours tr) +:+ "h " +:+ show (minutes tr) +:+ "m"
        else show (days tr) +:+ "d " +:+ show (hours tr) +:+ "h"
      else if 0 <? hours tr
        then show (hours tr) +:+ "h " +:+ show (minutes tr) +:+ "m"
      else if 0 <? minutes tr
        then show (minutes tr) +:+ "m " +:+ show (seconds tr) +:+ "s"
      else show (seconds tr) +:+ "s").
    { unfold formatTimeRemaining. rewrite Ho. reflexivity. }
    rewrite Hfmt.
    destruct (Z.ltb_spec 0 (days tr)); destruct (Z.eqb_spec (days tr) 1);
      destruct (Z.ltb_spec 0 (hours tr)); destruct (Z.ltb_spec 0 (minutes tr));
      repeat apply conj; intros; first [reflexivity | lia].
  - intros now clock deadlineDate Htr.
    assert (Hsigns : isOverdue tr = false ->
              (days tr < 0 -> hours tr <= 0 /\ minutes tr <= 0)
              /\ (days tr = 0 -> 0 <= hours tr /\ (hours tr = 0 -> 0 <= minutes tr))).
    { rewrite Htr. unfold calculateTimeRemaining.
      destruct (isPast deadlineDate clock); [discriminate |].
      intros _. cbn [days hours minutes].
      generalize (differenceInMinutes deadlineDate now). intros T.
      split; intros Hd.
      - assert (HT : T < 0).
        { destruct (Z.lt_ge_cases T 0) as [Hlt | Hge]; [exact Hlt |].
          pose proof (Z.div_pos T (24 * 60) Hge ltac:(lia)). lia. }
        pose proof (Z.rem_nonpos T (24 * 60) ltac:(lia) ltac:(lia)) as Hr.
        pose proof (Z.rem_nonpos T 60 ltac:(lia) ltac:(lia)) as Hm.
        split; [| exact Hm].
        destruct (Z.eq_dec (Z.rem T (24 * 60)) 0) as [Hz | Hnz];
          [rewrite Hz; reflexivity |].
        assert (Z.rem T (24 * 60) / 60 < 0); [| lia].
        apply Z.div_lt_upper_bound; lia.
      - assert (HT : 0 <= T < 24 * 60).
        { pose proof (Z.div_small_iff T (24 * 60) ltac:(lia)) as Hs.
          destruct (proj1 Hs Hd) as [Hb | Hb]; lia. }
        rewrite !Z.rem_mod_nonneg by lia.
        rewrite (Z.mod_small T (24 * 60)) by lia.
        split; [apply Z.div_pos; lia |].
        intros _. apply Z.mod_pos_bound. lia. }
    split.
    + intros Ho H1 Hgt Hh Hm. destruct (Hsigns Ho) as [Hneg Hzero].
      unfold formatTimeRemaining. rewrite Ho.
      destruct (Z.ltb_spec 0 (days tr)); [lia |].
      destruct (Z.ltb_spec 0 (hours tr)); [lia |].
      destruct (Z.ltb_spec 0 (minutes tr)); [lia | reflexivity].
    + unfold formatTimeRemaining, formatTimeRemaining_spec.
      destruct (isOverdue tr) eqn:Ho; [reflexivity |].
      destruct (Hsigns eq_refl) as [Hneg Hzero].
      destruct (Z.ltb_spec 0 (days tr)); destruct (Z.eqb_spec (days tr) 1);
        destruct (Z.ltb_spec 1 (days tr)); destruct (Z.eqb_spec (days tr) 0);
        try lia; try reflexivity; cbn [andb];
        destruct (Z.ltb_spec 0 (hours tr)); destruct (Z.leb_spec 1 (hours tr));
        destruct (Z.eqb_spec (hours tr) 0); try lia; try reflexivity;
        cbn [andb];
        destruct (Z.ltb_spec 0 (minutes tr));
        destruct (Z.leb_spec 1 (minutes tr)); try lia; reflexivity.
Qed.

Lemma formatTimeRemaining_cases_witness :
  let late := calculateTimeRemaining 1704103200000 1704103200004 1704103170000 in
  let tr := calculateTimeRemaining 1704103200000 1704103200004 1704196800000 in
  let soon := calculateTimeRemaining 1704103200000 1704103200004 1704103245000 in
  formatTimeRemaining late = "Overdue"
  /\ formatTimeRemaining tr = "2h 0m"
  /\ formatTimeRemaining soon = "45s"
  /\ formatTimeRemaining soon = formatTimeRemaining_spec soon.
Proof.
  intros late tr soon.
  split; [exact (proj1 (formatTimeRemaining_cases late) eq_refl) |].
  split; [exact (proj1 (proj1 (proj2 (formatTimeRemaining_cases tr)) eq_refl)
                   eq_refl) |].
  destruct (proj2 (proj2 (proj2 (formatTimeRemaining_cases soon)))
              1704103200000 1704103200004 1704103245000 eq_refl)
    as [Hs Hspec].
  split; [| exact Hspec].
  refine (Hs eq_refl _ _ _ _); vm_compute; intuition discriminate.
Defined.

(** C7. [getTimeUrgencyColor] is a step function of [totalMinutes] and the
    overdue flag whose thresholds belong to the lower tier: overdue is red;
    otherwise [totalMinutes <= 60] is red, [60 < totalMinutes <= 1440] is
    orange, [1440 < totalMinutes <= 4320] is yellow and
    [totalMinutes > 4320] is green.  So exactly 60 minutes is in the
    one-hour tier and exactly 1440 minutes in the one-day tier. *)
Theorem getTimeUrgencyColor_tiers (tr : TimeRemaining) :
  (isOverdue tr = true -> getTimeUrgencyColor tr = "text-red-500")
  /\ (isOverdue tr = false ->
      (totalMinutes tr <= 60 -> getTimeUrgencyColor tr = "text-red-500")
      /\ (60 < totalMinutes tr <= 1440 ->
          getTimeUrgencyColor tr = "text-orange-500")
      /\ (1440 < totalMinutes tr <= 4320 ->
          getTimeUrgencyColor tr = "text-yellow-600")
      /\ (4320 < totalMinutes tr ->
          getTimeUrgencyColor tr = "text-green-600")
      /\ (totalMinutes tr = 60 -> getTimeUrgencyColor tr = "text-red-500")
      /\ (totalMinutes tr = 1440 ->
          getTimeUrgencyColor tr = "text-orange-500")).
Proof.
  unfold getTimeUrgencyColor.
  split; [intros Ho; rewrite Ho; reflexivity |].
  intros Ho. rewrite Ho.
  repeat apply conj; intros H;
    repeat match goal with
           | |- context [?a <=? ?b] => destruct (Z.leb_spec a b)
           end;
    first [reflexivity | lia].
Qed.

Lemma getTimeUrgencyColor_tiers_witness :
  getTimeUrgencyColor (calculateTimeRemaining 0 0 3600000) = "text-red-500"
  /\ getTimeUrgencyColor (calculateTimeRemaining 0 0 86400000) = "text-orange-500".
Proof.
  split.
  - refine (proj1 (proj2 (proj2 (proj2 (proj2 (proj2
      (getTimeUrgencyColor_tiers (calculateTimeRemaining 0 0 3600000))
      eq_refl))))) eq_refl).
  - refine (proj2 (proj2 (proj2 (proj2 (proj2 (proj2
      (getTimeUrgencyColor_tiers (calculateTimeRemaining 0 0 86400000))
      eq_refl))))) eq_refl).
Defined.

End TimeUtilsClaims.

(** ** The API client and authentication errors *)

Section ApiClaims.
Import Browser Api.

Variable baseUrl : string.
Variable fetch : string -> RequestInit -> FetchResult.

Lemma removeToken_clears st :
  token (removeToken st) = None
  /\ persisted (localStorage (removeToken st)) = None
  /\ (forall v, localStorage st = Storage v ->
      localStorage (removeToken st) = Storage None).
Proof.
  unfold removeToken. destruct (localStorage st) eqn:E; simpl; rewrite ?E;
    repeat split; try reflexivity; intros v Hv; congruence.
Qed.

Lemma emit_token e st : token (emit e st) = token st.
Proof. reflexivity. Qed.

Lemma emit_localStorage e st : localStorage (emit e st) = localStorage st.
Proof. reflexivity. Qed.

Lemma auth_status_not_ok r : status r = 401 \/ status r = 403 -> ok r = false.
Proof. unfold ok. intros [H | H]; rewrite H; reflexivity. Qed.

(** C8. When the response has status 401 or 403, [request] clears the
    in-memory token and the persisted copy and then throws: the state it
    leaves behind with the rejection has no token.  For any other status
    outside 200-299 it throws with the token and the storage as they were. *)
Theorem request_auth_error_removes_token endpoint options st response :
  fetch (baseUrl +:+ endpoint) (config_of options st) = Responded response ->
  let st' := fst (request baseUrl fetch endpoint options st) in
  let result := snd (request baseUrl fetch endpoint options st) in
  (status response = 401 \/ status response = 403 ->
   (exists error, result = Rejected error)
   /\ token st' = None
   /\ persisted (localStorage st') = None
   /\ (forall v, localStorage st = Storage v -> localStorage st' = Storage None))
  /\ (ok response = false ->
      status response <> 401 -> status response <> 403 ->
      (exists error, result = Rejected error)
      /\ token st' = token st
      /\ localStorage st' = localStorage st).
Proof.
  intros Hfetch st' result. subst st' result.
  unfold request. rewrite Hfetch. split.
  - intros Hs. rewrite (auth_status_not_ok _ Hs). cbn [negb fst snd].
    assert (Hb : (status response =? 401) || (status response =? 403) = true).
    { destruct Hs as [-> | ->]; reflexivity. }
    rewrite Hb. split; [eexists; reflexivity |].
    match goal with |- context [removeToken ?s] => set (s0 := s) end.
    destruct (removeToken_clears s0) as (Ht & Hp & Hl).
    repeat split; assumption.
  - intros Hok H1 H2. rewrite Hok. cbn [negb fst snd].
    assert (Hb : (status response =? 401) || (status response =? 403) = false).
    { apply orb_false_iff. split; apply Z.eqb_neq; assumption. }
    rewrite Hb. split; [eexists; reflexivity |]. split; reflexivity.
Qed.

End ApiClaims.

Lemma request_auth_error_removes_token_witness :
  let fetch := fun (_ : string) (_ : Browser.RequestInit) =>
    Browser.Responded {| Browser.status := 401;
                         Browser.statusText := "Unauthorized";
                         Browser.json := None |} in
  let st := Api.constructor (Browser.Storage (Some "secret")) in
  Api.token st = Some "secret"
  /\ Api.token (fst (Api.request "http://localhost:3000/api" fetch "/auth/me"
                      {| Browser.method := None; Browser.headers := None;
                         Browser.body := None |} st)) = None.
Proof.
  intros fetch st. split; [reflexivity |].
  refine (proj1 (proj2 (proj1 (request_auth_error_removes_token
    "http://localhost:3000/api" fetch "/auth/me"
    {| Browser.method := None; Browser.headers := None; Browser.body := None |}
    st _ eq_refl) (or_introl eq_refl)))).
Defined.

(** ** The optimistic completion toggle *)

Section HabitsPageFacts.
Import Browser HabitsPage.

Variable baseUrl : string.
Variable fetch : string -> RequestInit -> FetchResult.
Variable renderedAt : Z.

Lemma same_habit_true hid item : same_habit hid item = true <-> habitId item = hid.
Proof. unfold same_habit. apply String.eqb_eq. Qed.

Lemma same_habit_false hid item : same_habit hid item = false <-> habitId item <> hid.
Proof. unfold same_habit. apply String.eqb_neq. Qed.

Lemma find_none_iff hid (items : list Item) :
  List.find (same_habit hid) items = None
  <-> forall e, e ∈ items -> habitId e <> hid.
Proof.
  split.
  - intros H e He. apply same_habit_false.
    apply (List.find_none _ _ H). apply list_elem_of_In. exact He.
  - intros H. destruct (List.find (same_habit hid) items) as [e |] eqn:E;
      [| reflexivity].
    apply List.find_some in E as [Hin Hm].
    apply list_elem_of_In in Hin. apply same_habit_true in Hm.
    exfalso. exact (H e Hin Hm).
Qed.

Lemma find_some_iff hid (items : list Item) :
  is_Some (List.find (same_habit hid) items)
  <-> exists e, e ∈ items /\ habitId e = hid.
Proof.
  split.
  - intros [e E]. apply List.find_some in E as [Hin Hm]. exists e.
    split; [apply list_elem_of_In; exact Hin | apply same_habit_true; exact Hm].
  - intros (e & Hin & Hm).
    destruct (List.find (same_habit hid) items) as [x |] eqn:E; [eauto |].
    exfalso. exact (proj1 (find_none_iff hid items) E e Hin Hm).
Qed.

(** Mapping [patch] over a list without the habit changes nothing. *)
Lemma patch_absent hid completed (items : list Item) :
  (forall e, e ∈ items -> habitId e <> hid) ->
  patch hid completed <$> items = items.
Proof.
  induction items as [| x xs IH]; intros H; [reflexivity |].
  rewrite fmap_cons. f_equal.
  - unfold patch.
    rewrite (proj2 (same_habit_false hid x)); [reflexivity |].
    apply H. left.
  - apply IH. intros e He. apply H. right. exact He.
Qed.

(** The heap-level [updater] allocates one array, never writes to an older
    one, and the new array holds [optimistic]. *)
Lemma updater_contents (h : Heap) a items hid completed :
  h !! a = Some items ->
  updater renderedAt hid completed (Some a) h =
    (h ++ [optimistic renderedAt hid completed items], Some (length h)).
Proof.
  intros Ha. unfold updater, array_map, array_find, array_push, optimistic, contents.
  rewrite Ha. cbn [from_option id].
  rewrite (lookup_app_l_Some _ _ _ _ Ha). cbn [from_option id].
  destruct (List.find (same_habit hid) items); [reflexivity |].
  f_equal. rewrite alter_app_r_alt by lia.
  rewrite Nat.sub_diag. reflexivity.
Qed.

Lemma setQueryDataWith_updater (w : World) a items hid completed :
  allCompletions w = Some a ->
  arrays w !! a = Some items ->
  setQueryDataWith (updater renderedAt hid completed) w =
    {| api := api w;
       arrays := arrays w ++ [optimistic renderedAt hid completed items];
       allCompletions := Some (length (arrays w)) |}.
Proof.
  intros Hc Ha. unfold setQueryDataWith.
  rewrite Hc, (updater_contents _ _ _ _ _ Ha). reflexivity.
Qed.

Lemma cached_inv (w : World) items :
  cached w = Some items ->
  exists a, allCompletions w = Some a /\ arrays w !! a = Some items.
Proof.
  unfold cached. destruct (allCompletions w) as [a |]; simpl; [eauto | discriminate].
Qed.

Lemma cached_after_update (w : World) items hid completed :
  cached w = Some items ->
  cached (setQueryDataWith (updater renderedAt hid completed) w)
  = Some (optimistic renderedAt hid completed items).
Proof.
  intros Hc. destruct (cached_inv _ _ Hc) as (a & Ha & Hl).
  rewrite (setQueryDataWith_updater _ _ _ _ _ Ha Hl).
  unfold cached. cbn [allCompletions arrays mbind option_bind].
  apply list_lookup_middle. reflexivity.
Qed.

End HabitsPageFacts.

Section HabitsPageClaims.
Import Browser HabitsPage.

Variable baseUrl : string.
Variable fetch : string -> RequestInit -> FetchResult.
Variable renderedAt : Z.

(** C2. On a cached list, the optimistic update gives: when the list has an
    entry for the habit, the same list with [completion.completed] of that
    entry overwritten by the desired flag, every other property of the
    entry and every other position of the list as they were (an entry
    without a completion object gets one that has [completed] only); when it
    has none, the list with
    [{habitId, completion: {completed, date: today}}] appended at the
    end. *)
Theorem optimistic_update_result (w : World) items hid completed :
  cached w = Some items ->
  exists result,
    cached (setQueryDataWith (updater renderedAt hid completed) w) = Some result
    /\ ((exists e, e ∈ items /\ habitId e = hid) ->
        length result = length items
        /\ forall i e, items !! i = Some e ->
             exists e',
               result !! i = Some e'
               /\ (habitId e <> hid -> e' = e)
               /\ (habitId e = hid ->
                   habitId e' = habitId e
                   /\ exists c',
                        completion e' = Some c'
                        /\ hc_completed c' = Some completed
                        /\ hc_id c' = completion e ≫= hc_id
                        /\ hc_habitId c' = completion e ≫= hc_habitId
                        /\ hc_date c' = completion e ≫= hc_date
                        /\ hc_value c' = completion e ≫= hc_value
                        /\ hc_notes c' = completion e ≫= hc_notes
                        /\ hc_createdAt c' = completion e ≫= hc_createdAt))
    /\ ((forall e, e ∈ items -> habitId e <> hid) ->
        result = items ++ [{| habitId := hid;
                              completion :=
                                Some {| hc_id := None; hc_habitId := None;
                                        hc_date := Some (today renderedAt);
                                        hc_completed := Some completed;
                                        hc_value := None; hc_notes := None;
                                        hc_createdAt := None |} |}]).
Proof.
  intros Hc. exists (optimistic renderedAt hid completed items).
  split; [apply cached_after_update; exact Hc |]. split.
  - intros Hex. apply find_some_iff in Hex as [x Hx].
    unfold optimistic. rewrite Hx. split; [apply length_fmap |].
    intros i e Hi. exists (patch hid completed e).
    split; [rewrite list_lookup_fmap, Hi; reflexivity |].
    unfold patch. split.
    + intros Hne. rewrite (proj2 (same_habit_false hid e) Hne). reflexivity.
    + intros Heq. rewrite (proj2 (same_habit_true hid e) Heq).
      split; [reflexivity |].
      exists (spread_completed (completion e) completed).
      split; [reflexivity |].
      destruct (completion e) as [c |]; repeat split.
  - intros Hno. unfold optimistic.
    rewrite (proj2 (find_none_iff hid items) Hno).
    rewrite (patch_absent _ _ _ Hno). reflexivity.
Qed.

(** What the spread leaves of the old completion object: only [completed]
    changes. *)
Lemma spread_completed_fields c completed :
  let c' := spread_completed (Some c) completed in
  hc_completed c' = Some completed
  /\ hc_id c' = hc_id c /\ hc_habitId c' = hc_habitId c
  /\ hc_date c' = hc_date c /\ hc_value c' = hc_value c
  /\ hc_notes c' = hc_notes c /\ hc_createdAt c' = hc_createdAt c.
Proof. simpl. repeat split. Qed.

(** C10. The optimistic update touches at most the entries of the toggled
    habit: an entry with another [habitId] is at its position, unchanged,
    in the result; and when the cache holds no list, the updater returns
    [undefined] again and the cache and the arrays are as before. *)
Theorem optimistic_update_frame (w : World) hid completed :
  (forall items, cached w = Some items ->
     exists result,
       cached (setQueryDataWith (updater renderedAt hid completed) w)
       = Some result
       /\ forall i e, items !! i = Some e -> habitId e <> hid ->
            result !! i = Some e)
  /\ (allCompletions w = None ->
      (forall h, updater renderedAt hid completed None h = (h, None))
      /\ setQueryDataWith (updater renderedAt hid completed) w = w).
Proof.
  split.
  - intros items Hc. exists (optimistic renderedAt hid completed items).
    split; [apply cached_after_update; exact Hc |].
    intros i e Hi Hne.
    assert (Hp : (patch hid completed <$> items) !! i = Some e).
    { rewrite list_lookup_fmap, Hi. cbn [fmap option_fmap option_map].
      unfold patch. rewrite (proj2 (same_habit_false hid e) Hne). reflexivity. }
    unfold optimistic. destruct (List.find (same_habit hid) items).
    + exact Hp.
    + apply lookup_app_l_Some. exact Hp.
  - intros Hnone. split; [reflexivity |].
    unfold setQueryDataWith. rewrite Hnone. simpl.
    destruct w as [ap ar ac]. simpl in *. subst ac. reflexivity.
Qed.

End HabitsPageClaims.

Lemma optimistic_update_result_witness :
  let undone :=
    {| HabitsPage.hc_id := Some "c1"; HabitsPage.hc_habitId := Some "run";
       HabitsPage.hc_date := Some "1970-01-01";
       HabitsPage.hc_completed := Some false;
       HabitsPage.hc_value := None; HabitsPage.hc_notes := None;
       HabitsPage.hc_createdAt := Some "1970-01-01T08:00:00.000Z" |} in
  let read := {| HabitsPage.habitId := "read"; HabitsPage.completion := None |} in
  let run := {| HabitsPage.habitId := "run";
                HabitsPage.completion := Some undone |} in
  let w := {| HabitsPage.api := Api.constructor (Browser.Storage None);
              HabitsPage.arrays := [[read; run]];
              HabitsPage.allCompletions := Some 0%nat |} in
  HabitsPage.cached w = Some [read; run]
  /\ exists result e' c',
       HabitsPage.cached
         (HabitsPage.setQueryDataWith (HabitsPage.updater 0 "run" true) w)
       = Some result
       /\ length result = 2%nat
       /\ result !! 0%nat = Some read
       /\ result !! 1%nat = Some e'
       /\ HabitsPage.completion e' = Some c'
       /\ HabitsPage.hc_completed c' = Some true
       /\ HabitsPage.hc_date c' = Some "1970-01-01".
Proof.
  intros undone read run w. split; [reflexivity |].
  destruct (optimistic_update_result 0 w [read; run] "run" true eq_refl)
    as (result & Hr & Hpresent & _).
  destruct Hpresent as (Hlen & Hat).
  { exists run. split; [right; left | reflexivity]. }
  destruct (Hat 0%nat read eq_refl) as (e0 & H0 & Hsame & _).
  destruct (Hat 1%nat run eq_refl) as (e1 & H1 & _ & Hover).
  destruct (Hover eq_refl) as (_ & c' & Hc' & Hflag & _ & _ & Hdate & _).
  exists result, e1, c'.
  split; [exact Hr |]. split; [exact Hlen |].
  split; [rewrite H0, (Hsame ltac:(discriminate)); reflexivity |].
  split; [exact H1 |]. split; [exact Hc' |]. split; [exact Hflag | exact Hdate].
Defined.

Lemma optimistic_update_frame_witness :
  let other := {| HabitsPage.habitId := "read"; HabitsPage.completion := None |} in
  let w := {| HabitsPage.api := Api.constructor (Browser.Storage None);
              HabitsPage.arrays := [[other]];
              HabitsPage.allCompletions := Some 0%nat |} in
  HabitsPage.cached w = Some [other]
  /\ exists result,
       HabitsPage.cached
         (HabitsPage.setQueryDataWith (HabitsPage.updater 0 "run" true) w)
       = Some result
       /\ result !! 0%nat = Some other.
Proof.
  intros other w. split; [reflexivity |].
  destruct (proj1 (optimistic_update_frame 0 w "run" true) [other] eq_refl)
    as (result & Hr & Hframe).
  exists result. split; [exact Hr |].
  apply (Hframe 0%nat other); [reflexivity | discriminate].
Defined.

(** ** The mutation from start to end *)

Section MutationFacts.
Import Browser HabitsPage.

Variable baseUrl : string.
Variable fetch : string -> RequestInit -> FetchResult.
Variable renderedAt : Z.

Ltac not_in_list :=
  let H := fresh in
  intros H;
  repeat (apply elem_of_cons in H as [H | H]; [discriminate |]);
  apply elem_of_nil in H; exact H.

(** [request] first logs and calls [fetch]; what it does afterwards is
    console output only. *)
Lemma request_effects endpoint options st :
  exists rest,
    Api.effects (fst (Api.request baseUrl fetch endpoint options st)) =
      Api.effects st
      ++ ConsoleLog "API Request:"
         :: Fetch (baseUrl +:+ endpoint) (Api.config_of options st) :: rest
    /\ Confetti ∉ rest.
Proof.
  unfold Api.request.
  destruct (fetch (baseUrl +:+ endpoint) (Api.config_of options st)) as [reason | r].
  - exists []. simpl. rewrite <- app_assoc. split; [reflexivity | not_in_list].
  - destruct (negb (ok r)).
    + destruct ((status r =? 401) || (status r =? 403)).
      * unfold Api.removeToken. cbn [Api.localStorage Api.emit].
        destruct (Api.localStorage st); cbn [removeItem fst Api.effects Api.emit];
          rewrite <- !app_assoc; eexists; (split; [reflexivity | not_in_list]).
      * eexists. cbn [fst Api.effects Api.emit]. rewrite <- !app_assoc.
        split; [reflexivity | not_in_list].
    + eexists. cbn [fst Api.effects Api.emit]. rewrite <- !app_assoc.
      split; [reflexivity | not_in_list].
Qed.

Lemma mutationFn_frame hid completed (w : World) :
  arrays (fst (mutationFn baseUrl fetch renderedAt hid completed w)) = arrays w
  /\ allCompletions (fst (mutationFn baseUrl fetch renderedAt hid completed w))
     = allCompletions w.
Proof.
  unfold mutationFn.
  destruct (Api.completeHabit baseUrl fetch hid (today renderedAt) completed (api w)).
  split; reflexivity.
Qed.

(** The request that [mutationFn] sends carries [today] as its date. *)
Lemma mutationFn_effects hid completed (w : World) :
  exists config rest,
    effects (fst (mutationFn baseUrl fetch renderedAt hid completed w)) =
      effects w
      ++ ConsoleLog "API Request:"
         :: Fetch (baseUrl +:+ "/habits/" +:+ hid +:+ "/complete") config :: rest
    /\ body config = Some (Api.stringify_completion (today renderedAt) completed)
    /\ method config = Some "POST"
    /\ Confetti ∉ rest.
Proof.
  unfold mutationFn, Api.completeHabit, effects.
  match goal with
  | |- context [Api.request _ _ ?e ?o ?s] =>
      destruct (request_effects e o s) as (rest & Heq & Hno);
      exists (Api.config_of o s), rest;
      destruct (Api.request baseUrl fetch e o s) as [st' res]
  end.
  repeat split; assumption.
Qed.

Lemma onMutate_cached (w : World) a items hid completed :
  allCompletions w = Some a ->
  arrays w !! a = Some items ->
  let w1 := fst (onMutate renderedAt hid completed w) in
  snd (onMutate renderedAt hid completed w) = {| previousCompletions := Some a |}
  /\ arrays w1 = arrays w ++ [optimistic renderedAt hid completed items]
  /\ allCompletions w1 = Some (length (arrays w)).
Proof.
  intros Hc Ha. unfold onMutate, getQueryData.
  assert (Hu : setQueryDataWith (updater renderedAt hid completed)
                 (emit (CancelQueries (queryKey renderedAt)) w)
               = {| api := api (emit (CancelQueries (queryKey renderedAt)) w);
                    arrays := arrays w
                              ++ [optimistic renderedAt hid completed items];
                    allCompletions := Some (length (arrays w)) |})
    by exact (setQueryDataWith_updater renderedAt
                (emit (CancelQueries (queryKey renderedAt)) w)
                a items hid completed Hc Ha).
  rewrite Hu. cbn [fst snd allCompletions emit]. rewrite Hc.
  destruct completed; repeat split; reflexivity.
Qed.

Lemma onMutate_effects (w : World) hid completed :
  effects (fst (onMutate renderedAt hid completed w)) =
    effects w
    ++ CancelQueries (queryKey renderedAt)
       :: (if completed then [Confetti] else []).
Proof.
  unfold onMutate, setQueryDataWith, effects.
  destruct (updater renderedAt hid completed _ _) as [h data].
  destruct completed; cbn [fst api emit triggerConfetti Api.effects Api.emit];
    rewrite <- ?app_assoc; reflexivity.
Qed.

Lemma onError_effects context (w : World) : effects (onError context w) = effects w.
Proof. destruct context as [[[a |]] |]; reflexivity. Qed.

Lemma onSettled_frame (w : World) :
  arrays (onSettled renderedAt w) = arrays w
  /\ allCompletions (onSettled renderedAt w) = allCompletions w
  /\ effects (onSettled renderedAt w) =
       effects w ++ [InvalidateQueries (queryKey renderedAt);
                     InvalidateQueries ["habits"]; InvalidateQueries ["stats"]].
Proof.
  unfold onSettled, effects. cbn [arrays allCompletions api emit Api.effects Api.emit].
  rewrite <- !app_assoc. repeat split; reflexivity.
Qed.

(** Rolling back: after a rejected request the cache slot points at the
    snapshot again, and the snapshot array still holds what it held. *)
Lemma rollback_restores (w : World) items hid completed error :
  cached w = Some items ->
  snd (mutationFn baseUrl fetch renderedAt hid completed
         (fst (onMutate renderedAt hid completed w))) = Rejected error ->
  let context := snd (onMutate renderedAt hid completed w) in
  let inflight := fst (mutationFn baseUrl fetch renderedAt hid completed
                         (fst (onMutate renderedAt hid completed w))) in
  previousCompletions context = allCompletions w
  /\ cached inflight = Some (optimistic renderedAt hid completed items)
  /\ allCompletions (onError (Some context) inflight) = allCompletions w
  /\ cached (onError (Some context) inflight) = Some items
  /\ mutate baseUrl fetch renderedAt hid completed w
     = onSettled renderedAt (onError (Some context) inflight).
Proof.
  intros Hc Hrej context inflight.
  destruct (cached_inv _ _ Hc) as (a & Ha & Hl).
  destruct (onMutate_cached w a items hid completed Ha Hl) as (Hctx & Harr & Hptr).
  destruct (mutationFn_frame hid completed
              (fst (onMutate renderedAt hid completed w))) as (Hfa & Hfp).
  fold inflight in Hfa, Hfp.
  assert (Hcontext : context = {| previousCompletions := Some a |}) by exact Hctx.
  split; [rewrite Hcontext, Ha; reflexivity |].
  split.
  { unfold cached. rewrite Hfp, Hptr. cbn [mbind option_bind].
    rewrite Hfa, Harr. apply list_lookup_middle. reflexivity. }
  split; [rewrite Hcontext, Ha; reflexivity |].
  split.
  { rewrite Hcontext. unfold cached, onError, setQueryData.
    cbn [allCompletions arrays mbind option_bind].
    rewrite Hfa, Harr. apply lookup_app_l_Some. exact Hl. }
  unfold mutate.
  destruct (onMutate renderedAt hid completed w) as [w1 ctx] eqn:E1.
  cbn [fst snd] in *.
  destruct (mutationFn baseUrl fetch renderedAt hid completed w1) as [w2 res] eqn:E2.
  cbn [fst snd] in *. subst res. reflexivity.
Qed.

End MutationFacts.

Section MutationClaims.
Import Browser HabitsPage.

Variable baseUrl : string.
Variable fetch : string -> RequestInit -> FetchResult.
Variable renderedAt : Z.

(** C9. The confetti is an effect of the optimistic phase: with the desired
    flag true it is fired right after the queries are cancelled and before
    the request is handed to [fetch], whatever [fetch] then answers, so also
    in a run whose request is rejected and whose cache is rolled back; with
    the desired flag false the mutation fires no confetti. *)
Theorem confetti_fires_before_the_request (w : World) hid completed :
  exists new,
    effects (mutate baseUrl fetch renderedAt hid completed w) = effects w ++ new
    /\ (completed = true ->
        exists url config rest,
          new = CancelQueries (queryKey renderedAt) :: Confetti
                :: ConsoleLog "API Request:" :: Fetch url config :: rest
          /\ Confetti ∉ rest)
    /\ (completed = true ->
        forall items error,
          cached w = Some items ->
          snd (mutationFn baseUrl fetch renderedAt hid completed
                 (fst (onMutate renderedAt hid completed w))) = Rejected error ->
          cached (mutate baseUrl fetch renderedAt hid completed w) = Some items
          /\ Confetti ∈ new)
    /\ (completed = false -> Confetti ∉ new).
Proof.
  pose proof (onMutate_effects renderedAt w hid completed) as H1.
  destruct (mutationFn_effects baseUrl fetch renderedAt hid completed
              (fst (onMutate renderedAt hid completed w)))
    as (config & rest & H2 & _ & _ & Hno).
  set (tail := [InvalidateQueries (queryKey renderedAt);
                InvalidateQueries ["habits"]; InvalidateQueries ["stats"]]).
  assert (Hnt : Confetti ∉ rest ++ tail).
  { intros H. apply elem_of_app in H as [H | H]; [exact (Hno H) |].
    subst tail.
    repeat (apply elem_of_cons in H as [H | H]; [discriminate |]).
    apply elem_of_nil in H. exact H. }
  assert (Hrun : effects (mutate baseUrl fetch renderedAt hid completed w) =
    effects w
    ++ (CancelQueries (queryKey renderedAt) :: (if completed then [Confetti] else []))
    ++ ConsoleLog "API Request:"
       :: Fetch (baseUrl +:+ "/habits/" +:+ hid +:+ "/complete") config
       :: rest ++ tail).
  { unfold mutate.
    destruct (onMutate renderedAt hid completed w) as [w1 ctx].
    cbn [fst] in H1, H2.
    destruct (mutationFn baseUrl fetch renderedAt hid completed w1) as [w2 res].
    cbn [fst] in H2.
    match goal with
    | |- effects (onSettled _ ?x) = _ =>
        destruct (onSettled_frame renderedAt x) as (_ & _ & Hs);
        rewrite Hs;
        assert (Hx : effects x = effects w2)
          by (destruct res; [reflexivity | apply onError_effects]);
        rewrite Hx
    end.
    rewrite H2, H1. rewrite <- !app_assoc. reflexivity. }
  eexists. split; [exact Hrun |].
  split; [| split].
  - intros ->. eexists _, _, _. split; [reflexivity | exact Hnt].
  - intros -> items error Hc Hrej. split.
    + destruct (rollback_restores baseUrl fetch renderedAt w items hid true
                  error Hc Hrej) as (_ & _ & _ & Hval & Hsame).
      rewrite Hsame.
      match goal with
      | |- cached (onSettled _ ?x) = _ =>
          destruct (onSettled_frame renderedAt x) as (Harr & Hp & _)
      end.
      unfold cached in *. rewrite Hp, Harr. exact Hval.
    + cbn [app]. apply elem_of_cons. right. apply elem_of_cons. left. reflexivity.
  - intros ->. cbn [app]. intros H.
    apply elem_of_cons in H as [H | H]; [discriminate |].
    apply elem_of_cons in H as [H | H]; [discriminate |].
    apply elem_of_cons in H as [H | H]; [discriminate |].
    exact (Hnt H).
Qed.

End MutationClaims.

Lemma confetti_fires_before_the_request_witness :
  let fetch := fun (_ : string) (_ : Browser.RequestInit) =>
    Browser.NetworkError "Failed to fetch" in
  let read := {| HabitsPage.habitId := "read"; HabitsPage.completion := None |} in
  let w := {| HabitsPage.api := Api.constructor (Browser.Storage (Some "secret"));
              HabitsPage.arrays := [[read]];
              HabitsPage.allCompletions := Some 0%nat |} in
  Browser.Confetti ∈
    HabitsPage.effects
      (HabitsPage.mutate "http://localhost:3000/api" fetch 1704137400000
         "run" true w)
  /\ HabitsPage.cached
       (HabitsPage.mutate "http://localhost:3000/api" fetch 1704137400000
          "run" true w) = Some [read].
Proof.
  intros fetch read w.
  destruct (confetti_fires_before_the_request
              "http://localhost:3000/api" fetch 1704137400000 w "run" true)
    as (new & Heq & _ & Hrolled & _).
  destruct (Hrolled eq_refl [read] "Failed to fetch" eq_refl
              ltac:(vm_compute; reflexivity)) as (Hcache & Hin).
  split; [| exact Hcache].
  rewrite Heq. apply elem_of_app. right. exact Hin.
Defined.

(** C3. The date of the toggle is the UTC date, not the date on the client's
    clock.  At 19:30 UTC on 1 January 2024 a client at UTC+05:30 is at 01:00
    on 2 January: [today] is [2024-01-01], which is what the request carries
    and what an appended cache entry stores, while [HabitCard] on the same
    client and at the same instant computes [2024-01-02]. *)
Theorem today_is_the_utc_date :
  let t := 1704137400000 in
  JsDate.toISOString t = "2024-01-01T19:30:00.000Z"
  /\ HabitsPage.today t = "2024-01-01"
  /\ HabitsPage.HabitCard_today 330 t = "2024-01-02"
  /\ (forall baseUrl fetch hid completed w,
        exists config rest,
          HabitsPage.effects
            (fst (HabitsPage.mutationFn baseUrl fetch t hid completed w))
          = HabitsPage.effects w
            ++ Browser.ConsoleLog "API Request:"
               :: Browser.Fetch (baseUrl +:+ "/habits/" +:+ hid +:+ "/complete")
                                config
               :: rest
          /\ Browser.body config
             = Some (Api.stringify_completion "2024-01-01" completed))
  /\ (forall hid completed w items,
        HabitsPage.cached w = Some items ->
        (forall e, e ∈ items -> HabitsPage.habitId e <> hid) ->
        HabitsPage.cached (fst (HabitsPage.onMutate t hid completed w))
        = Some (items ++ [HabitsPage.new_item "2024-01-01" hid completed])).
Proof.
  intros t.
  assert (Htoday : HabitsPage.today t = "2024-01-01") by (vm_compute; reflexivity).
  split; [vm_compute; reflexivity |].
  split; [exact Htoday |].
  split; [vm_compute; reflexivity |].
  split.
  - intros baseUrl fetch hid completed w.
    destruct (mutationFn_effects baseUrl fetch t hid completed w)
      as (config & rest & Heq & Hbody & _ & _).
    exists config, rest. rewrite <- Htoday. split; assumption.
  - intros hid completed w items Hc Hno.
    destruct (cached_inv _ _ Hc) as (a & Ha & Hl).
    destruct (onMutate_cached t w a items hid completed Ha Hl) as (_ & Harr & Hptr).
    unfold HabitsPage.cached. rewrite Hptr. cbn [mbind option_bind].
    rewrite Harr, list_lookup_middle by reflexivity.
    unfold HabitsPage.optimistic.
    rewrite (proj2 (find_none_iff hid items) Hno).
    rewrite (patch_absent _ _ _ Hno), Htoday. reflexivity.
Qed.

(** * Further properties *)

(** ** The countdown, its colour and its badge *)

Section TimeUtilsMore.
Import TimeUtils.

Lemma string_app_assoc (a b c : string) : (a +:+ b) +:+ c = a +:+ (b +:+ c).
Proof.
  induction a as [| x a IH]; [reflexivity |].
  change (String x ((a +:+ b) +:+ c) = String x (a +:+ (b +:+ c))).
  f_equal. exact IH.
Qed.

Lemma append_last_inj (a b : string) (c d : ascii) :
  a +:+ String c EmptyString = b +:+ String d EmptyString -> c = d.
Proof.
  revert b. induction a as [| x a IH]; intros [| y b] H.
  - change (String c EmptyString = String d EmptyString) in H. congruence.
  - change (String c EmptyString = String y (b +:+ String d EmptyString)) in H.
    injection H as _ H. destruct b; discriminate.
  - change (String x (a +:+ String c EmptyString) = String d EmptyString) in H.
    injection H as _ H. destruct a; discriminate.
  - change (String x (a +:+ String c EmptyString)
            = String y (b +:+ String d EmptyString)) in H.
    injection H as _ H. exact (IH b H).
Qed.

(** A string that ends in [h], [m] or [s] is not ["Overdue"]. *)
Lemma not_overdue_text (a : string) (c : ascii) :
  c <> "e"%char -> a +:+ String c EmptyString <> "Overdue".
Proof.
  intros Hc H. apply Hc.
  apply (append_last_inj a "Overdu" c "e"%char). exact H.
Qed.

(** X1. The fields of a countdown are in range and put together again they give
    the remaining whole seconds: nothing of the duration is lost or counted
    twice. *)
Theorem calculateTimeRemaining_recomposes now clock deadline :
  now <= deadline ->
  clock <= deadline ->
  let r := calculateTimeRemaining now clock deadline in
  0 <= days r
  /\ 0 <= hours r < 24
  /\ 0 <= minutes r < 60
  /\ 0 <= seconds r < 60
  /\ days r * 1440 + hours r * 60 + minutes r = totalMinutes r
  /\ ((days r * 24 + hours r) * 60 + minutes r) * 60 + seconds r
     = (deadline - now) / 1000.
Proof.
  intros Hnow Hclock r. subst r.
  rewrite calculateTimeRemaining_future by assumption.
  rewrite differenceInMinutes_floor, differenceInSeconds_floor by lia.
  cbn [days hours minutes seconds totalMinutes].
  assert (Hm : 0 <= (deadline - now) / 60000) by (apply Z.div_pos; lia).
  assert (Hs : 0 <= (deadline - now) / 1000) by (apply Z.div_pos; lia).
  rewrite !Z.rem_mod_nonneg by lia.
  assert (Hdiv : (deadline - now) / 60000 = (deadline - now) / 1000 / 60).
  { rewrite Z.div_div by lia. reflexivity. }
  rewrite Hdiv in *.
  set (S := (deadline - now) / 1000) in *.
  Z.div_mod_to_equations. lia.
Qed.

Lemma calculateTimeRemaining_recomposes_witness :
  let r := calculateTimeRemaining 1704103200000 1704103200004 1704196861500 in
  days r = 1 /\ hours r = 2 /\ minutes r = 1 /\ seconds r = 1
  /\ ((days r * 24 + hours r) * 60 + minutes r) * 60 + seconds r = 93661.
Proof.
  intros r.
  pose proof (calculateTimeRemaining_recomposes
                1704103200000 1704103200004 1704196861500
                ltac:(lia) ltac:(lia)) as (_ & _ & _ & _ & _ & H).
  do 4 (split; [reflexivity |]). exact H.
Defined.

(** X2. The countdown of a deadline reads ["Overdue"] exactly when the deadline
    is before the clock reading of [isPast]; a deadline at that very instant
    is not overdue. *)
Theorem formatted_overdue_iff now clock deadline :
  formatTimeRemaining (calculateTimeRemaining now clock deadline) = "Overdue"
  <-> deadline < clock.
Proof.
  split.
  - intros H. destruct (Z.lt_ge_cases deadline clock) as [Hp | Hf]; [exact Hp |].
    exfalso. rewrite calculateTimeRemaining_future in H by assumption.
    revert H. cbv zeta. unfold formatTimeRemaining.
    cbn [isOverdue days hours minutes seconds].
    repeat match goal with
           | |- context [if ?b then _ else _] => destruct b
           end;
      rewrite <- ?string_app_assoc;
      (apply (not_overdue_text _ "m"%char) || apply (not_overdue_text _ "h"%char)
       || apply (not_overdue_text _ "s"%char));
      discriminate.
  - intros Hp. unfold calculateTimeRemaining.
    rewrite (proj2 (isPast_true deadline clock) Hp). reflexivity.
Qed.

(** X3. The colour in real time: with a deadline that is not in the past, the
    countdown is red while less than 61 minutes remain, orange from there up
    to 1441 minutes, yellow up to 4321 minutes and green from then on; the
    part of a minute that is cut off counts for the lower tier. *)
Theorem urgency_colour_by_remaining_time now clock deadline :
  now <= deadline ->
  clock <= deadline ->
  let remaining := deadline - now in
  let colour := getTimeUrgencyColor (calculateTimeRemaining now clock deadline) in
  (remaining < 61 * 60000 -> colour = "text-red-500")
  /\ (61 * 60000 <= remaining < 1441 * 60000 -> colour = "text-orange-500")
  /\ (1441 * 60000 <= remaining < 4321 * 60000 -> colour = "text-yellow-600")
  /\ (4321 * 60000 <= remaining -> colour = "text-green-600").
Proof.
  intros Hnow Hclock remaining colour. subst remaining colour.
  rewrite calculateTimeRemaining_future by assumption.
  rewrite differenceInMinutes_floor by lia.
  unfold getTimeUrgencyColor. cbn [isOverdue totalMinutes].
  repeat apply conj; intros H;
    repeat match goal with
           | |- context [?a <=? ?b] => destruct (Z.leb_spec a b)
           end;
    try reflexivity; exfalso; Z.div_mod_to_equations; lia.
Qed.

Lemma urgency_colour_by_remaining_time_witness :
  getTimeUrgencyColor (calculateTimeRemaining 0 0 (60 * 60000 + 59999))
  = "text-red-500".
Proof.
  apply (proj1 (urgency_colour_by_remaining_time 0 0 (60 * 60000 + 59999)
                  ltac:(lia) ltac:(lia))).
  lia.
Defined.

(** X4. Badge and colour never disagree: the badge is [destructive] exactly when
    the text is red, [default] exactly when it is orange, and [secondary]
    exactly when it is yellow or green. *)
Theorem badge_agrees_with_colour (tr : TimeRemaining) :
  (getUrgencyBadgeVariant tr = destructive
   <-> getTimeUrgencyColor tr = "text-red-500")
  /\ (getUrgencyBadgeVariant tr = default_variant
      <-> getTimeUrgencyColor tr = "text-orange-500")
  /\ (getUrgencyBadgeVariant tr = secondary
      <-> getTimeUrgencyColor tr = "text-yellow-600"
          \/ getTimeUrgencyColor tr = "text-green-600").
Proof.
  unfold getUrgencyBadgeVariant, getTimeUrgencyColor.
  destruct (isOverdue tr); cbn [orb];
    repeat match goal with
           | |- context [?a <=? ?b] => destruct (Z.leb_spec a b)
           end;
    repeat split; intros Hx; try reflexivity; try discriminate;
    try (destruct Hx; discriminate); try lia; auto.
Qed.

End TimeUtilsMore.

(** ** Ordering the pending tasks *)

Section TasksPageFacts.
Import TimeUtils TasksPage.

Lemma isOverdue_at t d :
  isOverdue (calculateTimeRemaining t t d) = (d <? t).
Proof. unfold calculateTimeRemaining, isPast. destruct (d <? t); reflexivity. Qed.

Lemma totalMinutes_at t d :
  t <= d -> totalMinutes (calculateTimeRemaining t t d) = Z.quot (d - t) 60000.
Proof.
  intros H. rewrite calculateTimeRemaining_future by assumption. reflexivity.
Qed.

Lemma compare_sign (a b : TimeRemaining) : compare a b < 0 <-> 0 < compare b a.
Proof.
  unfold compare. destruct (isOverdue a), (isOverdue b); cbn [andb negb]; lia.
Qed.

(** X5. The comparator is one that a sort can rely on: it is reflexive,
    swapping the arguments swaps the sign, it is transitive, and every
    overdue record goes before every record that is not overdue. *)
Theorem compare_is_consistent (a b c : TimeRemaining) :
  compare a a = 0
  /\ (compare a b < 0 <-> 0 < compare b a)
  /\ (compare a b = 0 <-> compare b a = 0)
  /\ (compare a b <= 0 -> compare b c <= 0 -> compare a c <= 0)
  /\ (isOverdue a = true -> isOverdue b = false -> compare a b < 0).
Proof.
  unfold compare.
  destruct (isOverdue a), (isOverdue b), (isOverdue c); cbn [andb negb];
    repeat split; intros; try discriminate; lia.
Qed.

(** X6. At one instant the comparator orders tasks by deadline, to the minute:
    a task whose deadline is not later never goes after, a task that goes
    strictly before has a strictly earlier deadline, and two overdue tasks
    tie however far apart their deadlines are. *)
Theorem compareTasks_orders_by_deadline t (a b : Task) :
  (deadline a <= deadline b -> compareTasks t t t t a b <= 0)
  /\ (compareTasks t t t t a b < 0 -> deadline a < deadline b)
  /\ (deadline a < t -> deadline b < t -> compareTasks t t t t a b = 0).
Proof.
  assert (Hmono : forall x y : Task,
             deadline x <= deadline y -> compareTasks t t t t x y <= 0).
  { intros x y Hxy. unfold compareTasks, compare. rewrite !isOverdue_at.
    destruct (Z.ltb_spec (deadline x) t), (Z.ltb_spec (deadline y) t);
      cbn [andb negb]; try lia.
    rewrite !totalMinutes_at by assumption.
    pose proof (Z.quot_le_mono (deadline x - t) (deadline y - t) 60000
                  ltac:(lia) ltac:(lia)).
    lia. }
  split; [apply Hmono |]. split.
  - intros Hlt. destruct (Z.lt_ge_cases (deadline a) (deadline b)) as [H | H];
      [exact H |].
    exfalso. pose proof (Hmono b a H) as Hba.
    unfold compareTasks in *. apply compare_sign in Hlt. lia.
  - intros Ha Hb. unfold compareTasks, compare. rewrite !isOverdue_at.
    rewrite (proj2 (Z.ltb_lt _ _) Ha), (proj2 (Z.ltb_lt _ _) Hb). reflexivity.
Qed.

Lemma compareTasks_orders_by_deadline_witness :
  let a := {| id := "report"; deadline := 1704106800000; completed := false |} in
  let b := {| id := "taxes"; deadline := 1704110400000; completed := false |} in
  compareTasks 1704103200000 1704103200000 1704103200000 1704103200000 a b <= 0.
Proof.
  intros a b.
  apply (proj1 (compareTasks_orders_by_deadline 1704103200000 a b)).
  vm_compute. discriminate.
Defined.

Lemma filter_none {A} (f : A -> bool) (l : list A) :
  (forall y, y ∈ l -> f y = false) -> List.filter f l = [].
Proof.
  induction l as [| x l IH]; intros H; [reflexivity |].
  cbn [List.filter]. rewrite (H x) by left. apply IH.
  intros y Hy. apply H. right. exact Hy.
Qed.

(** X7. In a list that is sorted by the comparator, the overdue tasks are its
    first elements and in the same order: filtering them out of the sorted
    list takes a prefix, and no task after that prefix is overdue. *)
Theorem overdueTasks_is_a_prefix t (sortedPendingTasks : list Task) :
  StronglySorted (fun a b => compareTasks t t t t a b <= 0) sortedPendingTasks ->
  exists k,
    overdueTasks t sortedPendingTasks = take k sortedPendingTasks
    /\ forall task, task ∈ drop k sortedPendingTasks -> t <= deadline task.
Proof.
  induction 1 as [| x l Hsorted IH Hx].
  - exists 0%nat. split; [reflexivity |]. intros task H. inversion H.
  - unfold overdueTasks. cbn [List.filter]. rewrite isOverdue_at.
    destruct (Z.ltb_spec (deadline x) t) as [Hpast | Hfuture].
    + destruct IH as (k & Hk & Hrest). exists (S k).
      split; [cbn [take]; f_equal; exact Hk | exact Hrest].
    + exists 0%nat.
      assert (Hall : forall y, y ∈ l -> t <= deadline y).
      { intros y Hy. rewrite Forall_forall in Hx.
        specialize (Hx y Hy). unfold compareTasks, compare in Hx.
        rewrite !isOverdue_at in Hx.
        destruct (Z.ltb_spec (deadline x) t); [lia |].
        destruct (Z.ltb_spec (deadline y) t); [| assumption].
        cbn [andb negb] in Hx. lia. }
      split.
      * cbn [take]. apply filter_none. intros y Hy.
        rewrite isOverdue_at. apply Z.ltb_ge. apply Hall. exact Hy.
      * cbn [drop]. intros task Htask.
        apply elem_of_cons in Htask as [-> | Htask]; [assumption |].
        apply Hall. exact Htask.
Qed.

Lemma overdueTasks_is_a_prefix_witness :
  let late := {| id := "late"; deadline := 5; completed := false |} in
  let soon := {| id := "soon"; deadline := 70000; completed := false |} in
  exists k, overdueTasks 10 [late; soon] = take k [late; soon].
Proof.
  intros late soon.
  destruct (overdueTasks_is_a_prefix 10 [late; soon]) as (k & Hk & _).
  - repeat constructor; vm_compute; discriminate.
  - exists k. exact Hk.
Defined.

End TasksPageFacts.

(** ** The API client: tokens, headers and outcomes *)

Section ApiMore.
Import Browser Api.

Variable baseUrl : string.
Variable fetch : string -> RequestInit -> FetchResult.


(** X9. A response in the range 200-299 never fails and never touches the token:
    [request] resolves with the parsed body, and with the placeholder
    [{message: 'Server error'}] when the body is not JSON. *)
Theorem request_success endpoint options st response :
  fetch (baseUrl +:+ endpoint) (config_of options st) = Responded response ->
  ok response = true ->
  let st' := fst (request baseUrl fetch endpoint options st) in
  let result := snd (request baseUrl fetch endpoint options st) in
  (forall d, json response = Some d -> result = Resolved d)
  /\ (json response = None ->
      result = Resolved {| message := Some "Server error"; payload := "" |})
  /\ token st' = token st
  /\ localStorage st' = localStorage st.
Proof.
  intros Hfetch Hok st' result. subst st' result.
  unfold request. rewrite Hfetch, Hok. cbn [negb fst snd].
  split; [intros d Hd; rewrite Hd; reflexivity |].
  split; [intros Hd; rewrite Hd; reflexivity |].
  split; reflexivity.
Qed.

(** X10. The error that [request] throws for a response outside 200-299 has
    ['Server error'] as its message when the body is not JSON, the body's
    [message] when that is a non-empty string, and ['An error occurred']
    when the body has no [message] or the empty string as [message]. *)
Theorem request_error_message endpoint options st response :
  fetch (baseUrl +:+ endpoint) (config_of options st) = Responded response ->
  ok response = false ->
  exists error,
    snd (request baseUrl fetch endpoint options st) = Rejected error
    /\ (json response = None -> error = "Server error")
    /\ (forall d c m, json response = Some d -> message d = Some (String c m) ->
        error = String c m)
    /\ (forall d, json response = Some d ->
        message d = None \/ message d = Some EmptyString ->
        error = "An error occurred").
Proof.
  intros Hfetch Hok. unfold request. rewrite Hfetch, Hok. cbn [negb fst snd].
  eexists. split; [reflexivity |].
  destruct (json response) as [d |]; cbn [truthy message from_option id].
  - split; [intros H; discriminate |]. split.
    + intros d' c m Hd Hm. assert (d' = d) by congruence. subst d'.
      rewrite Hm. reflexivity.
    + intros d' Hd Hm. assert (d' = d) by congruence. subst d'.
      destruct Hm as [Hm | Hm]; rewrite Hm; reflexivity.
  - split; [reflexivity |]. split; intros; discriminate.
Qed.

(** X11. What [request] hands to [fetch]: without headers from the caller, the
    content type and, exactly when the client holds a non-empty token, the
    bearer token; with headers from the caller, those headers and nothing
    else, so that the token is not sent unless the caller put it there. *)
Theorem request_headers endpoint options st :
  exists config rest,
    effects (fst (request baseUrl fetch endpoint options st)) =
      effects st
      ++ ConsoleLog "API Request:" :: Fetch (baseUrl +:+ endpoint) config :: rest
    /\ (headers options = None ->
        forall c t, token st = Some (String c t) ->
        headers config = Some [("Content-Type", "application/json");
                               ("Authorization", "Bearer " +:+ String c t)])
    /\ (headers options = None -> truthy (token st) = false ->
        headers config = Some [("Content-Type", "application/json")])
    /\ (forall h, headers options = Some h -> headers config = Some h).
Proof.
  destruct (request_effects baseUrl fetch endpoint options st) as (rest & Heq & _).
  exists (config_of options st), rest. split; [exact Heq |].
  unfold config_of. cbn [headers].
  repeat split.
  - intros Hnone c t Htok. rewrite Hnone, Htok. reflexivity.
  - intros Hnone Htruthy. rewrite Hnone.
    destruct (token st) as [[| c t] |]; cbn in Htruthy; try discriminate;
      reflexivity.
  - intros h Hh. rewrite Hh. reflexivity.
Qed.

Ltac no_fetch_in_list :=
  let u := fresh in let c := fresh in let H := fresh in
  intros u c H;
  repeat (apply elem_of_cons in H as [H | H]; [discriminate |]);
  apply elem_of_nil in H; exact H.

(** X12. One call of [request] calls [fetch] once, whatever comes back, and it
    never gives the client a token: the token and the storage are either as
    before or cleared. *)
Theorem request_fetches_once_and_sets_no_token endpoint options st :
  let st' := fst (request baseUrl fetch endpoint options st) in
  (exists config rest,
     effects st' =
       effects st
       ++ ConsoleLog "API Request:" :: Fetch (baseUrl +:+ endpoint) config :: rest
     /\ forall u c, Fetch u c ∉ rest)
  /\ ((token st' = token st /\ localStorage st' = localStorage st)
      \/ (token st' = None /\ persisted (localStorage st') = None)).
Proof.
  intros st'. subst st'. unfold request.
  destruct (fetch (baseUrl +:+ endpoint) (config_of options st)) as [reason | r].
  - split; [| left; split; reflexivity].
    exists (config_of options st), []. cbn [fst effects emit].
    rewrite <- !app_assoc. split; [reflexivity | no_fetch_in_list].
  - destruct (negb (ok r)).
    + destruct ((status r =? 401) || (status r =? 403)).
      * split.
        -- unfold removeToken. cbn [localStorage emit].
           destruct (localStorage st); cbn [removeItem fst effects emit];
             rewrite <- !app_assoc; eexists _, _;
             (split; [reflexivity | no_fetch_in_list]).
        -- right. cbn [fst].
           match goal with |- context [removeToken ?s] => set (s0 := s) end.
           destruct (removeToken_clears s0) as (Ht & Hp & _). split; assumption.
      * split; [| left; split; reflexivity].
        eexists _, _. cbn [fst effects emit]. rewrite <- !app_assoc.
        split; [reflexivity | no_fetch_in_list].
    + split; [| left; split; reflexivity].
      eexists _, _. cbn [fst effects emit]. rewrite <- !app_assoc.
      split; [reflexivity | no_fetch_in_list].
Qed.

End ApiMore.

Lemma request_success_witness :
  let fetch := fun (_ : string) (_ : Browser.RequestInit) =>
    Browser.Responded {| Browser.status := 204;
                         Browser.statusText := "No Content";
                         Browser.json := None |} in
  snd (Api.request "http://localhost:3000/api" fetch "/habits/7"
         {| Browser.method := Some "DELETE"; Browser.headers := None;
            Browser.body := None |}
         (Api.constructor (Browser.Storage (Some "secret"))))
  = Browser.Resolved {| Browser.message := Some "Server error";
                        Browser.payload := "" |}.
Proof.
  intros fetch.
  exact (proj1 (proj2 (request_success "http://localhost:3000/api" fetch
                         "/habits/7" _ _ _ eq_refl eq_refl)) eq_refl).
Defined.

Lemma request_error_message_witness :
  let fetch := fun (_ : string) (_ : Browser.RequestInit) =>
    Browser.Responded
      {| Browser.status := 422; Browser.statusText := "Unprocessable Entity";
         Browser.json := Some {| Browser.message := Some "Title is required";
                                 Browser.payload := "" |} |} in
  exists error,
    snd (Api.request "http://localhost:3000/api" fetch "/habits"
           {| Browser.method := Some "POST"; Browser.headers := None;
              Browser.body := Some "{}" |}
           (Api.constructor (Browser.Storage None)))
    = Browser.Rejected error
    /\ error = "Title is required".
Proof.
  intros fetch.
  destruct (request_error_message "http://localhost:3000/api" fetch "/habits"
              {| Browser.method := Some "POST"; Browser.headers := None;
                 Browser.body := Some "{}" |}
              (Api.constructor (Browser.Storage None)) _ eq_refl eq_refl)
    as (error & Hrej & _ & Hmessage & _).
  exists error. split; [exact Hrej |].
  exact (Hmessage _ _ _ eq_refl eq_refl).
Defined.

(** ** The toggle as the page sees it *)

Section HabitsPageMore.
Import Browser HabitsPage HabitsView.

Variable baseUrl : string.
Variable fetch : string -> RequestInit -> FetchResult.
Variable renderedAt : Z.

Lemma find_fmap_preserved {A} (p : A -> bool) (f : A -> A) (l : list A) :
  (forall x, p (f x) = p x) ->
  List.find p (f <$> l) = f <$> List.find p l.
Proof.
  intros Hp. induction l as [| x l IH]; [reflexivity |].
  rewrite fmap_cons. cbn [List.find]. rewrite Hp.
  destruct (p x); [reflexivity | exact IH].
Qed.

Lemma find_app {A} (p : A -> bool) (l1 l2 : list A) :
  List.find p (l1 ++ l2) =
    match List.find p l1 with
    | Some x => Some x
    | None => List.find p l2
    end.
Proof.
  induction l1 as [| x l1 IH]; [reflexivity |].
  cbn [app List.find]. destruct (p x); [reflexivity | exact IH].
Qed.

Lemma same_habit_patch other hid completed item :
  same_habit other (patch hid completed item) = same_habit other item.
Proof. unfold patch. destruct (same_habit hid item); reflexivity. Qed.

Lemma patch_other hid completed item :
  habitId item <> hid -> patch hid completed item = item.
Proof.
  intros H. unfold patch. rewrite (proj2 (same_habit_false hid item) H). reflexivity.
Qed.

Lemma onMutate_cached_value (w : World) items hid completed :
  cached w = Some items ->
  cached (fst (onMutate renderedAt hid completed w))
  = Some (optimistic renderedAt hid completed items).
Proof.
  intros Hc. destruct (cached_inv _ _ Hc) as (a & Ha & Hl).
  destruct (onMutate_cached renderedAt w a items hid completed Ha Hl)
    as (_ & Harr & Hptr).
  unfold cached. rewrite Hptr. cbn [mbind option_bind].
  rewrite Harr. apply list_lookup_middle. reflexivity.
Qed.

(** What [isHabitCompletedToday] reads from a list. *)
Lemma isHabitCompletedToday_cached (w : World) items hid :
  cached w = Some items ->
  isHabitCompletedToday w hid =
    match List.find (same_habit hid) items with
    | Some item =>
        match completion item with
        | Some c => default false (hc_completed c)
        | None => false
        end
    | None => false
    end.
Proof. intros Hc. unfold isHabitCompletedToday. rewrite Hc. reflexivity. Qed.

(** Looking the toggled habit up in the optimistic list finds an entry that
    carries the desired flag. *)
Lemma find_optimistic_same hid completed (items : list Item) :
  exists item c,
    List.find (same_habit hid) (optimistic renderedAt hid completed items)
    = Some item
    /\ completion item = Some c
    /\ hc_completed c = Some completed.
Proof.
  unfold optimistic.
  destruct (List.find (same_habit hid) items) as [x |] eqn:E.
  - rewrite find_fmap_preserved by (intros; apply same_habit_patch).
    rewrite E. cbn [fmap option_fmap option_map].
    apply List.find_some in E as [_ Hx].
    unfold patch. rewrite Hx. eexists _, _. repeat split.
  - rewrite find_app.
    rewrite find_fmap_preserved by (intros; apply same_habit_patch).
    rewrite E. cbn [fmap option_fmap option_map List.find].
    unfold same_habit, new_item. cbn [habitId].
    rewrite String.eqb_refl. eexists _, _. repeat split.
Qed.

(** Looking another habit up finds what it found before. *)
Lemma find_optimistic_other hid completed other (items : list Item) :
  other <> hid ->
  List.find (same_habit other) (optimistic renderedAt hid completed items)
  = List.find (same_habit other) items.
Proof.
  intros Hne.
  assert (Hfind : List.find (same_habit other)
                    (patch hid completed <$> items)
                  = List.find (same_habit other) items).
  { rewrite find_fmap_preserved by (intros; apply same_habit_patch).
    destruct (List.find (same_habit other) items) as [y |] eqn:E;
      [| reflexivity].
    cbn [fmap option_fmap option_map]. f_equal.
    apply List.find_some in E as [_ Hy]. apply same_habit_true in Hy.
    apply patch_other. congruence. }
  unfold optimistic.
  destruct (List.find (same_habit hid) items); [exact Hfind |].
  rewrite find_app, Hfind.
  destruct (List.find (same_habit other) items); [reflexivity |].
  cbn [List.find]. unfold same_habit, new_item. cbn [habitId].
  rewrite (proj2 (String.eqb_neq hid other)) by congruence. reflexivity.
Qed.

Lemma same_habit_overwrite hid c item :
  same_habit hid (overwrite c item) = same_habit hid item.
Proof. reflexivity. Qed.

Lemma overwrite_overwrite c1 c2 item :
  overwrite c2 (overwrite c1 item) = overwrite c2 item.
Proof. destruct item as [h [c |]]; reflexivity. Qed.

Lemma patch_patch hid c1 c2 item :
  patch hid c2 (patch hid c1 item) = patch hid c2 item.
Proof.
  unfold patch. destruct (same_habit hid item) eqn:E.
  - rewrite same_habit_overwrite, E. apply overwrite_overwrite.
  - rewrite E. reflexivity.
Qed.

(** X13. The page reads back what the toggle wrote: right after [onMutate],
    [isHabitCompletedToday] of the toggled habit is the desired flag, also
    when the list holds the habit more than once or held it without a
    completion, and its answer for every other habit is what it was. *)
Theorem toggle_is_read_back (w : World) items hid completed :
  cached w = Some items ->
  let w1 := fst (onMutate renderedAt hid completed w) in
  isHabitCompletedToday w1 hid = completed
  /\ forall other, other <> hid ->
       isHabitCompletedToday w1 other = isHabitCompletedToday w other.
Proof.
  intros Hc w1. subst w1.
  pose proof (onMutate_cached_value w items hid completed Hc) as H1.
  split.
  - rewrite (isHabitCompletedToday_cached _ _ hid H1).
    destruct (find_optimistic_same hid completed items)
      as (item & c & Hfind & Hcompletion & Hflag).
    rewrite Hfind, Hcompletion, Hflag. reflexivity.
  - intros other Hne.
    rewrite (isHabitCompletedToday_cached _ _ other H1).
    rewrite (isHabitCompletedToday_cached _ _ other Hc).
    rewrite find_optimistic_other by exact Hne. reflexivity.
Qed.

(** Writing twice is writing the last flag once. *)
Lemma optimistic_twice hid c1 c2 (items : list Item) :
  optimistic renderedAt hid c2 (optimistic renderedAt hid c1 items)
  = optimistic renderedAt hid c2 items.
Proof.
  unfold optimistic at 2 3.
  destruct (List.find (same_habit hid) items) as [x |] eqn:E.
  - unfold optimistic.
    rewrite find_fmap_preserved by (intros; apply same_habit_patch).
    rewrite E. cbn [fmap option_fmap option_map].
    rewrite <- list_fmap_compose. apply list_fmap_ext.
    intros i y _. apply patch_patch.
  - pose proof (proj1 (find_none_iff hid items) E) as Hno.
    rewrite (patch_absent _ _ _ Hno).
    unfold optimistic. rewrite find_app, E.
    cbn [List.find]. unfold same_habit at 1, new_item at 1. cbn [habitId].
    rewrite String.eqb_refl.
    rewrite fmap_app, (patch_absent _ _ _ Hno).
    cbn [fmap list_fmap]. unfold patch, same_habit, new_item. cbn [habitId].
    rewrite String.eqb_refl. reflexivity.
Qed.

(** X14. A second toggle of the same habit wins: toggling to [c1] and then to
    [c2] leaves the cache as one toggle to [c2] would, so an undo keeps the
    entry and marks it not completed, and the list never grows by more than
    one entry. *)
Theorem second_toggle_wins (w : World) items hid c1 c2 :
  cached w = Some items ->
  let twice := fst (onMutate renderedAt hid c2
                      (fst (onMutate renderedAt hid c1 w))) in
  cached twice = cached (fst (onMutate renderedAt hid c2 w))
  /\ exists result,
       cached twice = Some result
       /\ (length items <= length result <= S (length items))%nat.
Proof.
  intros Hc twice. subst twice.
  pose proof (onMutate_cached_value w items hid c1 Hc) as H1.
  pose proof (onMutate_cached_value _ _ hid c2 H1) as H2.
  pose proof (onMutate_cached_value w items hid c2 Hc) as H3.
  rewrite optimistic_twice in H2. split; [congruence |].
  eexists. split; [exact H2 |].
  unfold optimistic. destruct (List.find (same_habit hid) items).
  - rewrite length_fmap. lia.
  - rewrite length_app, length_fmap. cbn [length]. lia.
Qed.

End HabitsPageMore.

Lemma toggle_is_read_back_witness :
  let run := {| HabitsPage.habitId := "run"; HabitsPage.completion := None |} in
  let w := {| HabitsPage.api := Api.constructor (Browser.Storage None);
              HabitsPage.arrays := [[run; run]];
              HabitsPage.allCompletions := Some 0%nat |} in
  HabitsView.isHabitCompletedToday w "run" = false
  /\ HabitsView.isHabitCompletedToday
       (fst (HabitsPage.onMutate 0 "run" true w)) "run" = true.
Proof.
  intros run w. split; [reflexivity |].
  exact (proj1 (toggle_is_read_back 0 w [run; run] "run" true eq_refl)).
Defined.

Lemma second_toggle_wins_witness :
  let w := {| HabitsPage.api := Api.constructor (Browser.Storage None);
              HabitsPage.arrays := [[]];
              HabitsPage.allCompletions := Some 0%nat |} in
  HabitsPage.cached
    (fst (HabitsPage.onMutate 0 "run" false
            (fst (HabitsPage.onMutate 0 "run" true w))))
  = Some [HabitsPage.new_item "1970-01-01" "run" false].
Proof.
  intros w.
  rewrite (proj1 (second_toggle_wins 0 w [] "run" true false eq_refl)).
  reflexivity.
Defined.

Section HabitsViewFacts.
Import HabitsPage HabitsView.

Lemma in_filter {A} (f : A -> bool) (x : A) (l : list A) :
  x ∈ List.filter f l <-> x ∈ l /\ f x = true.
Proof. rewrite !list_elem_of_In. apply List.filter_In. Qed.

(** X17. The four lists of the page are disjoint, and together they hold every
    filtered habit except the active [specific_days] habits that are not
    completed today: such a habit is in none of the lists. *)
Theorem habit_groups_partition (w : World) (filteredHabits : list Habit) h :
  h ∈ filteredHabits ->
  let D := h ∈ dailyHabits w filteredHabits in
  let W := h ∈ weeklyHabits w filteredHabits in
  let C := h ∈ completedHabits w filteredHabits in
  let A := h ∈ archivedHabits filteredHabits in
  ~ (D /\ W) /\ ~ (D /\ C) /\ ~ (D /\ A)
  /\ ~ (W /\ C) /\ ~ (W /\ A) /\ ~ (C /\ A)
  /\ (~ (D \/ W \/ C \/ A)
      <-> isActive h = true
          /\ isHabitCompletedToday w (id h) = false
          /\ schedule_type h = specific_days).
Proof.
  intros Hin D W C A. subst D W C A.
  unfold dailyHabits, weeklyHabits, completedHabits, archivedHabits.
  rewrite !in_filter. unfold is_daily, is_weekly.
  destruct (schedule_type h), (isActive h), (isHabitCompletedToday w (id h));
    cbn [andb negb]; repeat split; intros; try discriminate;
    intuition (try discriminate; try congruence).
Qed.

End HabitsViewFacts.

Section MutationMore.
Import Browser HabitsPage HabitsView.

Variable baseUrl : string.
Variable fetch : string -> RequestInit -> FetchResult.
Variable renderedAt : Z.

(** X18. Completing a habit moves its card: right after [onMutate] with the flag
    true, an active habit with the toggled id is in the completed list and
    in neither the daily nor the weekly list, and every habit with another
    id is in the same lists as before. *)
Theorem toggle_moves_the_habit (w : World) items hid
    (filteredHabits : list Habit) h :
  cached w = Some items ->
  h ∈ filteredHabits ->
  let w1 := fst (onMutate renderedAt hid true w) in
  (id h = hid -> isActive h = true ->
   h ∈ completedHabits w1 filteredHabits
   /\ (h ∉ dailyHabits w1 filteredHabits)
   /\ (h ∉ weeklyHabits w1 filteredHabits))
  /\ (id h <> hid ->
      iff (h ∈ dailyHabits w1 filteredHabits) (h ∈ dailyHabits w filteredHabits)
      /\ iff (h ∈ weeklyHabits w1 filteredHabits)
             (h ∈ weeklyHabits w filteredHabits)
      /\ iff (h ∈ completedHabits w1 filteredHabits)
             (h ∈ completedHabits w filteredHabits)).
Proof.
  intros Hc Hin w1. subst w1.
  pose proof (onMutate_cached_value renderedAt w items hid true Hc) as H1.
  assert (Hread : isHabitCompletedToday
                    (fst (onMutate renderedAt hid true w)) hid = true).
  { rewrite (isHabitCompletedToday_cached _ _ hid H1).
    destruct (find_optimistic_same renderedAt hid true items)
      as (item & c & Hfind & Hcompletion & Hflag).
    rewrite Hfind, Hcompletion, Hflag. reflexivity. }
  assert (Hother : forall other, other <> hid ->
            isHabitCompletedToday (fst (onMutate renderedAt hid true w)) other
            = isHabitCompletedToday w other).
  { intros other Hne.
    rewrite (isHabitCompletedToday_cached _ _ other H1).
    rewrite (isHabitCompletedToday_cached _ _ other Hc).
    rewrite find_optimistic_other by exact Hne. reflexivity. }
  unfold dailyHabits, weeklyHabits, completedHabits.
  rewrite !in_filter. split.
  - intros Hid Hact. rewrite Hid, Hread, Hact, !andb_false_r.
    split; [split; [assumption | reflexivity] |].
    split; intros [_ Hx]; discriminate.
  - intros Hne. rewrite (Hother (id h) Hne).
    split; [reflexivity | split; reflexivity].
Qed.

End MutationMore.

(** ** The mutation across renders *)

Section RendersFacts.
Import Browser HabitsPage.

Variable baseUrl : string.
Variable fetch : string -> RequestInit -> FetchResult.

Lemma keyed_cached_inv (w : Renders.Cache) day items :
  Renders.cached day w = Some items ->
  exists a,
    Renders.completions w !! day = Some a /\ Renders.arrays w !! a = Some items.
Proof.
  unfold Renders.cached.
  destruct (Renders.completions w !! day) as [a |]; simpl; [eauto | discriminate].
Qed.

(** [onMutate] of the render at [r] reads and writes the key of [today r]
    only. *)
Lemma keyed_onMutate (w : Renders.Cache) r a items hid completed :
  Renders.completions w !! today r = Some a ->
  Renders.arrays w !! a = Some items ->
  let w1 := fst (Renders.onMutate r hid completed w) in
  snd (Renders.onMutate r hid completed w) = {| previousCompletions := Some a |}
  /\ Renders.arrays w1 = Renders.arrays w ++ [optimistic r hid completed items]
  /\ Renders.completions w1
     = <[today r := length (Renders.arrays w)]> (Renders.completions w).
Proof.
  intros Hc Ha. unfold Renders.onMutate, Renders.getQueryData,
    Renders.setQueryDataWith.
  cbn [Renders.emit Renders.completions Renders.arrays Renders.api].
  rewrite Hc, (updater_contents r _ _ _ hid completed Ha).
  destruct completed; repeat split; reflexivity.
Qed.

Lemma keyed_onMutate_cached (w : Renders.Cache) r items hid completed :
  Renders.cached (today r) w = Some items ->
  Renders.cached (today r) (fst (Renders.onMutate r hid completed w))
  = Some (optimistic r hid completed items).
Proof.
  intros Hc. destruct (keyed_cached_inv _ _ _ Hc) as (a & Ha & Hl).
  destruct (keyed_onMutate w r a items hid completed Ha Hl) as (_ & Harr & Hp).
  unfold Renders.cached. rewrite Hp, lookup_insert_eq. cbn [mbind option_bind].
  rewrite Harr. apply list_lookup_middle. reflexivity.
Qed.

Lemma keyed_mutationFn_frame r hid completed (w : Renders.Cache) :
  Renders.arrays (fst (Renders.mutationFn baseUrl fetch r hid completed w))
  = Renders.arrays w
  /\ Renders.completions (fst (Renders.mutationFn baseUrl fetch r hid completed w))
     = Renders.completions w.
Proof.
  unfold Renders.mutationFn.
  destruct (Api.completeHabit baseUrl fetch hid (today r) completed
              (Renders.api w)).
  split; reflexivity.
Qed.

Lemma keyed_onSettled_frame r (w : Renders.Cache) :
  Renders.arrays (Renders.onSettled r w) = Renders.arrays w
  /\ Renders.completions (Renders.onSettled r w) = Renders.completions w
  /\ Renders.effects (Renders.onSettled r w) =
       Renders.effects w ++ [InvalidateQueries (queryKey r);
                             InvalidateQueries ["habits"];
                             InvalidateQueries ["stats"]].
Proof.
  unfold Renders.onSettled, Renders.effects.
  cbn [Renders.arrays Renders.completions Renders.api Renders.emit
       Api.effects Api.emit].
  rewrite <- !app_assoc. repeat split; reflexivity.
Qed.

(** The run of a mutation whose request is rejected. *)
Lemma keyed_mutate_rejected (w : Renders.Cache) hid completed error
    atMutate atRequest atError atSettled :
  snd (Renders.mutationFn baseUrl fetch atRequest hid completed
         (fst (Renders.onMutate atMutate hid completed w))) = Rejected error ->
  Renders.mutate baseUrl fetch atMutate atRequest atError atSettled
    hid completed w
  = Renders.onSettled atSettled
      (Renders.onError atError
         (Some (snd (Renders.onMutate atMutate hid completed w)))
         (fst (Renders.mutationFn baseUrl fetch atRequest hid completed
                 (fst (Renders.onMutate atMutate hid completed w))))).
Proof.
  intros Hrej. unfold Renders.mutate.
  destruct (Renders.onMutate atMutate hid completed w) as [w1 ctx].
  cbn [fst snd] in *.
  destruct (Renders.mutationFn baseUrl fetch atRequest hid completed w1)
    as [w2 res].
  cbn [fst snd] in *. subst res. reflexivity.
Qed.

(** While the day does not change between the renders, a run of the
    mutation is the run of [HabitsPage.mutate] on the entry of that day. *)
Lemma mutate_on_one_day (w : Renders.Cache) hid completed
    atMutate atRequest atError atSettled :
  today atRequest = today atMutate ->
  today atError = today atMutate ->
  today atSettled = today atMutate ->
  Renders.on_day (today atMutate)
    (Renders.mutate baseUrl fetch atMutate atRequest atError atSettled
       hid completed w)
  = mutate baseUrl fetch atMutate hid completed
      (Renders.on_day (today atMutate) w).
Proof.
  intros Hrequest Herror Hsettled.
  unfold Renders.mutate, mutate, Renders.onMutate, onMutate,
    Renders.mutationFn, mutationFn, Renders.onSettled, onSettled,
    Renders.setQueryDataWith, setQueryDataWith, Renders.getQueryData,
    getQueryData, triggerConfetti, queryKey.
  rewrite Hrequest, Hsettled.
  cbn [Renders.emit emit Renders.on_day Renders.api Renders.arrays
       Renders.completions api arrays allCompletions].
  destruct (updater atMutate hid completed
              (Renders.completions w !! today atMutate) (Renders.arrays w))
    as [h data].
  destruct completed;
    cbn [Renders.emit emit Renders.api Renders.arrays Renders.completions
         api arrays allCompletions];
    match goal with
    | |- context [Api.completeHabit ?b ?f ?i ?d ?c ?a] =>
        destruct (Api.completeHabit b f i d c a) as [st [json | error]]
    end;
    unfold Renders.onError, onError, Renders.setQueryData, setQueryData;
    rewrite ?Herror;
    destruct (Renders.completions w !! today atMutate) as [a |] eqn:E;
    destruct data as [x |];
    unfold Renders.on_day, Renders.emit, emit;
    cbn [Renders.api Renders.arrays Renders.completions
         api arrays allCompletions];
    rewrite ?lookup_insert_eq, ?E; reflexivity.
Qed.

End RendersFacts.

Section RendersClaims.
Import Browser HabitsPage.

Variable baseUrl : string.
Variable fetch : string -> RequestInit -> FetchResult.

(** C1. When the network call of the completion mutation fails, [onError]
    writes the snapshot that [onMutate] took just before its optimistic
    write under the key of the day of the render that is current at the
    error.  When that is still the day of the toggle, the cache of that day
    reads the list from before the toggle again, whole.  When the day has
    changed in between, the snapshot is stored under the new day and the
    cache of the day of the toggle keeps the optimistic list: nothing is
    rolled back. *)
Theorem rollback_follows_the_render_day (w : Renders.Cache) items hid completed
    error atMutate atRequest atError atSettled :
  Renders.cached (today atMutate) w = Some items ->
  snd (Renders.mutationFn baseUrl fetch atRequest hid completed
         (fst (Renders.onMutate atMutate hid completed w))) = Rejected error ->
  let inflight := fst (Renders.mutationFn baseUrl fetch atRequest hid completed
                         (fst (Renders.onMutate atMutate hid completed w))) in
  let after := Renders.mutate baseUrl fetch atMutate atRequest atError
                 atSettled hid completed w in
  Renders.cached (today atMutate) inflight
  = Some (optimistic atMutate hid completed items)
  /\ Renders.cached (today atError) after = Some items
  /\ (today atError = today atMutate ->
      Renders.cached (today atMutate) after = Some items)
  /\ (today atError <> today atMutate ->
      Renders.cached (today atMutate) after
      = Some (optimistic atMutate hid completed items)).
Proof.
  intros Hc Hrej inflight after. subst inflight after.
  rewrite (keyed_mutate_rejected baseUrl fetch w hid completed error
             atMutate atRequest atError atSettled Hrej).
  destruct (keyed_cached_inv _ _ _ Hc) as (a & Ha & Hl).
  destruct (keyed_onMutate w atMutate a items hid completed Ha Hl)
    as (Hctx & Harr & Hp).
  destruct (keyed_mutationFn_frame baseUrl fetch atRequest hid completed
              (fst (Renders.onMutate atMutate hid completed w))) as (Hfa & Hfp).
  rewrite Hctx.
  set (w2 := fst (Renders.mutationFn baseUrl fetch atRequest hid completed
                    (fst (Renders.onMutate atMutate hid completed w)))) in *.
  assert (Hopt : Renders.cached (today atMutate) w2
                 = Some (optimistic atMutate hid completed items)).
  { unfold Renders.cached. rewrite Hfp, Hp, lookup_insert_eq.
    cbn [mbind option_bind]. rewrite Hfa, Harr.
    apply list_lookup_middle. reflexivity. }
  assert (Hsnap : Renders.arrays w2 !! a = Some items).
  { rewrite Hfa, Harr. apply lookup_app_l_Some. exact Hl. }
  assert (Hread : forall day,
            Renders.cached day
              (Renders.onSettled atSettled
                 (Renders.onError atError
                    (Some {| previousCompletions := Some a |}) w2))
            = (<[today atError := a]> (Renders.completions w2) !! day)
                ≫= (fun x => Renders.arrays w2 !! x)) by reflexivity.
  split; [exact Hopt |].
  split; [rewrite Hread, lookup_insert_eq; exact Hsnap |].
  split.
  - intros <-. rewrite Hread, lookup_insert_eq. exact Hsnap.
  - intros Hne. rewrite Hread, lookup_insert_ne by exact Hne. exact Hopt.
Qed.

(** X15. Every run of the mutation ends by invalidating three query keys,
    whether the request resolved or was rejected: the completions of the day
    of the render that is current when the mutation settles, the habits and
    the statistics.  When the request resolved, the cache of the day of the
    toggle still holds the optimistic list, which only a refetch
    replaces. *)
Theorem mutate_settles (w : Renders.Cache) hid completed
    atMutate atRequest atError atSettled :
  (exists before,
     Renders.effects
       (Renders.mutate baseUrl fetch atMutate atRequest atError atSettled
          hid completed w) =
       before ++ [InvalidateQueries ["all-habit-completions"; today atSettled];
                  InvalidateQueries ["habits"]; InvalidateQueries ["stats"]])
  /\ (forall items data,
        Renders.cached (today atMutate) w = Some items ->
        snd (Renders.mutationFn baseUrl fetch atRequest hid completed
               (fst (Renders.onMutate atMutate hid completed w)))
        = Resolved data ->
        Renders.cached (today atMutate)
          (Renders.mutate baseUrl fetch atMutate atRequest atError atSettled
             hid completed w)
        = Some (optimistic atMutate hid completed items)).
Proof.
  split.
  - unfold Renders.mutate.
    destruct (Renders.onMutate atMutate hid completed w) as [w1 ctx].
    destruct (Renders.mutationFn baseUrl fetch atRequest hid completed w1)
      as [w2 res].
    match goal with
    | |- context [Renders.onSettled _ ?x] =>
        destruct (keyed_onSettled_frame atSettled x) as (_ & _ & Hs);
        exists (Renders.effects x); exact Hs
    end.
  - intros items data Hc Hres.
    pose proof (keyed_onMutate_cached w atMutate items hid completed Hc) as H1.
    destruct (keyed_mutationFn_frame baseUrl fetch atRequest hid completed
                (fst (Renders.onMutate atMutate hid completed w)))
      as (Hfa & Hfp).
    unfold Renders.mutate.
    destruct (Renders.onMutate atMutate hid completed w) as [w1 ctx].
    cbn [fst snd] in *.
    destruct (Renders.mutationFn baseUrl fetch atRequest hid completed w1)
      as [w2 res].
    cbn [fst snd] in *. subst res.
    destruct (keyed_onSettled_frame atSettled w2) as (Harr & Hp & _).
    unfold Renders.cached in *. rewrite Hp, Harr, Hfp, Hfa. exact H1.
Qed.

(** X16. A rollback restores its own snapshot over whatever was written
    since.  On a day that does not change between the renders: when a second
    toggle starts before the first one settles, the cache of the day first
    shows both optimistic writes; if the first request then fails, its
    rollback puts back the list from before both toggles, and the write of
    the second toggle is gone as well, also when it was for another habit;
    if instead the second one fails, its rollback keeps the first write. *)
Theorem rollback_discards_later_toggle (w : Renders.Cache) items h1 c1 h2 c2
    atFirst atSecond atError :
  Renders.cached (today atFirst) w = Some items ->
  today atSecond = today atFirst ->
  today atError = today atFirst ->
  let first := Renders.onMutate atFirst h1 c1 w in
  let second := Renders.onMutate atSecond h2 c2 (fst first) in
  Renders.cached (today atFirst) (fst second)
  = Some (optimistic atSecond h2 c2 (optimistic atFirst h1 c1 items))
  /\ Renders.cached (today atFirst)
       (Renders.onError atError (Some (snd first)) (fst second)) = Some items
  /\ Renders.cached (today atFirst)
       (Renders.onError atError (Some (snd second)) (fst second))
     = Some (optimistic atFirst h1 c1 items).
Proof.
  intros Hc Hsecond Herror first second. subst first second.
  destruct (keyed_cached_inv _ _ _ Hc) as (a & Ha & Hl).
  destruct (keyed_onMutate w atFirst a items h1 c1 Ha Hl)
    as (Hctx1 & Harr1 & Hptr1).
  pose proof (keyed_onMutate_cached w atFirst items h1 c1 Hc) as Hc1.
  rewrite <- Hsecond in Hc1.
  assert (Hp1 : Renders.completions (fst (Renders.onMutate atFirst h1 c1 w))
                !! today atSecond = Some (length (Renders.arrays w))).
  { rewrite Hptr1, Hsecond. apply lookup_insert_eq. }
  assert (Hl1 : Renders.arrays (fst (Renders.onMutate atFirst h1 c1 w))
                !! length (Renders.arrays w)
                = Some (optimistic atFirst h1 c1 items)).
  { rewrite Harr1. apply list_lookup_middle. reflexivity. }
  destruct (keyed_onMutate _ atSecond _ _ h2 c2 Hp1 Hl1)
    as (Hctx2 & Harr2 & Hptr2).
  split.
  { rewrite <- Hsecond. apply keyed_onMutate_cached. exact Hc1. }
  split.
  - rewrite Hctx1. unfold Renders.cached, Renders.onError, Renders.setQueryData.
    cbn [Renders.completions Renders.arrays].
    rewrite Herror, lookup_insert_eq. cbn [mbind option_bind].
    rewrite Harr2, Harr1.
    apply lookup_app_l_Some, lookup_app_l_Some. exact Hl.
  - rewrite Hctx2. unfold Renders.cached, Renders.onError, Renders.setQueryData.
    cbn [Renders.completions Renders.arrays].
    rewrite Herror, lookup_insert_eq. cbn [mbind option_bind].
    rewrite Harr2. apply lookup_app_l_Some. exact Hl1.
Qed.

End RendersClaims.

Lemma rollback_after_midnight :
  let fetch := fun (_ : string) (_ : Browser.RequestInit) =>
    Browser.NetworkError "Failed to fetch" in
  let read := {| HabitsPage.habitId := "read"; HabitsPage.completion := None |} in
  let w := {| Renders.api := Api.constructor (Browser.Storage (Some "secret"));
              Renders.arrays := [[read]];
              Renders.completions := {["2024-01-01" := 0%nat]} |} in
  let after := Renders.mutate "http://localhost:3000/api" fetch
                 1704153599000 1704153599000 1704153601000 1704153601000
                 "run" true w in
  HabitsPage.today 1704153599000 = "2024-01-01"
  /\ HabitsPage.today 1704153601000 = "2024-01-02"
  /\ Renders.cached "2024-01-01" w = Some [read]
  /\ Renders.cached "2024-01-01" after
     = Some [read; HabitsPage.new_item "2024-01-01" "run" true]
  /\ Renders.cached "2024-01-01" after <> Renders.cached "2024-01-01" w
  /\ Renders.cached "2024-01-02" after = Some [read].
Proof.
  intros fetch read w after.
  assert (Hw : Renders.cached (HabitsPage.today 1704153599000) w = Some [read])
    by (vm_compute; reflexivity).
  assert (Hrej : snd (Renders.mutationFn "http://localhost:3000/api" fetch
                        1704153599000 "run" true
                        (fst (Renders.onMutate 1704153599000 "run" true w)))
                 = Browser.Rejected "Failed to fetch")
    by (vm_compute; reflexivity).
  destruct (rollback_follows_the_render_day "http://localhost:3000/api" fetch
              w [read] "run" true "Failed to fetch"
              1704153599000 1704153599000 1704153601000 1704153601000
              Hw Hrej) as (_ & Hnew & _ & Hold).
  assert (Hdays : HabitsPage.today 1704153601000
                  <> HabitsPage.today 1704153599000)
    by (vm_compute; discriminate).
  specialize (Hold Hdays).
  split; [vm_compute; reflexivity |].
  split; [vm_compute; reflexivity |].
  split; [exact Hw |].
  split; [exact Hold |].
  split; [| exact Hnew].
  change (Renders.cached (HabitsPage.today 1704153599000) after
          <> Renders.cached (HabitsPage.today 1704153599000) w).
  fold after in Hold. rewrite Hold, Hw. discriminate.
Defined.

Lemma mutate_settles_witness :
  let fetch := fun (_ : string) (_ : Browser.RequestInit) =>
    Browser.Responded {| Browser.status := 200; Browser.statusText := "OK";
                         Browser.json := Some {| Browser.message := None;
                                                 Browser.payload := "{}" |} |} in
  let read := {| HabitsPage.habitId := "read"; HabitsPage.completion := None |} in
  let w := {| Renders.api := Api.constructor (Browser.Storage (Some "secret"));
              Renders.arrays := [[read]];
              Renders.completions := {["2024-01-01" := 0%nat]} |} in
  Renders.cached "2024-01-01"
    (Renders.mutate "http://localhost:3000/api" fetch
       1704153599000 1704153599000 1704153601000 1704153601000 "run" true w)
  = Some [read; HabitsPage.new_item "2024-01-01" "run" true].
Proof.
  intros fetch read w.
  exact (proj2 (mutate_settles "http://localhost:3000/api" fetch w "run" true
                  1704153599000 1704153599000 1704153601000 1704153601000)
           [read] {| Browser.message := None; Browser.payload := "{}" |}
           ltac:(vm_compute; reflexivity) ltac:(vm_compute; reflexivity)).
Defined.

Lemma rollback_discards_later_toggle_witness :
  let read := {| HabitsPage.habitId := "read"; HabitsPage.completion := None |} in
  let w := {| Renders.api := Api.constructor (Browser.Storage None);
              Renders.arrays := [[read]];
              Renders.completions := {["2024-01-01" := 0%nat]} |} in
  let first := Renders.onMutate 1704137400000 "read" true w in
  let second := Renders.onMutate 1704137460000 "run" true (fst first) in
  HabitsPage.today 1704137400000 = "2024-01-01"
  /\ Renders.cached "2024-01-01" (fst second)
     = Some [HabitsPage.overwrite true read;
             HabitsPage.new_item "2024-01-01" "run" true]
  /\ Renders.cached "2024-01-01"
       (Renders.onError 1704137520000 (Some (snd first)) (fst second))
     = Some [read].
Proof.
  intros read w first second.
  destruct (rollback_discards_later_toggle w [read] "read" true "run" true
              1704137400000 1704137460000 1704137520000
              ltac:(vm_compute; reflexivity) ltac:(vm_compute; reflexivity)
              ltac:(vm_compute; reflexivity)) as (Hboth & Hback & _).
  split; [vm_compute; reflexivity |].
  split; [exact Hboth | exact Hback].
Defined.

Lemma habit_groups_partition_witness :
  let stretch := {| HabitsView.id := "stretch";
                    HabitsView.schedule_type := HabitsView.specific_days;
                    HabitsView.isActive := true |} in
  let w := {| HabitsPage.api := Api.constructor (Browser.Storage None);
              HabitsPage.arrays := [[]];
              HabitsPage.allCompletions := Some 0%nat |} in
  ~ (stretch ∈ HabitsView.dailyHabits w [stretch]
     \/ stretch ∈ HabitsView.weeklyHabits w [stretch]
     \/ stretch ∈ HabitsView.completedHabits w [stretch]
     \/ stretch ∈ HabitsView.archivedHabits [stretch]).
Proof.
  intros stretch w.
  apply (proj2 (proj2 (proj2 (proj2 (proj2 (proj2
           (habit_groups_partition w [stretch] stretch
              ltac:(apply list_elem_of_here)))))))).
  repeat split.
Defined.

Lemma toggle_moves_the_habit_witness :
  let run := {| HabitsView.id := "run";
                HabitsView.schedule_type := HabitsView.daily;
                HabitsView.isActive := true |} in
  let w := {| HabitsPage.api := Api.constructor (Browser.Storage None);
              HabitsPage.arrays := [[]];
              HabitsPage.allCompletions := Some 0%nat |} in
  run ∈ HabitsView.dailyHabits w [run]
  /\ run ∈ HabitsView.completedHabits
           (fst (HabitsPage.onMutate 0 "run" true w)) [run].
Proof.
  intros run w. split; [apply list_elem_of_here |].
  exact (proj1 (proj1 (toggle_moves_the_habit 0 w [] "run" [run] run eq_refl
                         ltac:(apply list_elem_of_here)) eq_refl eq_refl)).
Defined.

(** ** Signing in and out *)

Section AuthContextFacts.
Import Browser AuthContext.

Variable baseUrl : string.
Variable fetch : string -> RequestInit -> FetchResult.
Variable data_of : Json -> option (string * string).

Lemma hasToken_persisted storage :
  hasToken storage = truthy (persisted storage).
Proof. destruct storage; reflexivity. Qed.


(** X19. The page starts authenticated exactly when the storage holds a
    non-empty token, and that is exactly when the API client starts with a
    token to send: the flag and the client agree from the first render. *)
Theorem start_flag_agrees_with_client storage :
  isAuthenticated (start storage) = truthy (Api.token (api (start storage)))
  /\ (isAuthenticated (start storage) = true
      <-> exists c t, persisted storage = Some (String c t)).
Proof.
  unfold start, initialAuthenticated, hasToken, Api.constructor.
  destruct storage as [| [[| c t] |]]; cbn; (split; [reflexivity |]); split;
    intros H; try discriminate;
    try (destruct H as (c0 & t0 & H); discriminate);
    try reflexivity; eauto.
Qed.

(** X20. After [logout] nothing of the session is left: the flag is false, the
    client has no token, the cached user is gone, the storage has no token
    to read back, and a page that starts from this storage starts signed
    out, whether or not the storage works. *)
Theorem logout_forgets_the_session st :
  let st' := logout st in
  isAuthenticated st' = false
  /\ Api.token (api st') = None
  /\ currentUser st' = None
  /\ persisted (Api.localStorage (api st')) = None
  /\ isAuthenticated (start (Api.localStorage (api st'))) = false.
Proof.
  intros st'. subst st'. unfold logout. cbn [isAuthenticated api currentUser].
  destruct (removeToken_clears (api st)) as (Ht & Hp & _).
  repeat split; try assumption.
  unfold start, initialAuthenticated. cbn [isAuthenticated].
  rewrite hasToken_persisted, Hp. reflexivity.
Qed.

(** X21. The effect keeps the flag honest: whatever the state before it and
    whatever the query reports, after it the flag is true only if the
    storage holds a non-empty token; and a token that the server refused
    (the query is in error) is removed, from the client and the storage. *)
Theorem authEffect_keeps_the_flag_honest error st :
  let st' := authEffect error st in
  (isAuthenticated st' = true ->
   hasToken (Api.localStorage (api st')) = true)
  /\ (hasToken (Api.localStorage (api st)) = false ->
      isAuthenticated st' = false)
  /\ (hasToken (Api.localStorage (api st)) = true -> error = true ->
      isAuthenticated st' = false
      /\ Api.token (api st') = None
      /\ persisted (Api.localStorage (api st')) = None).
Proof.
  intros st'. subst st'. unfold authEffect.
  destruct (hasToken (Api.localStorage (api st))) eqn:Has.
  - destruct error.
    + cbn [isAuthenticated api].
      match goal with |- context [Api.removeToken ?s] => set (s0 := s) end.
      destruct (removeToken_clears s0) as (Ht & Hp & _).
      repeat split; try assumption; intros; discriminate.
    + destruct (currentUser st); cbn [isAuthenticated api Api.emit Api.localStorage];
        repeat split; intros; try discriminate; assumption.
  - cbn [isAuthenticated api]. repeat split; intros; discriminate.
Qed.


End AuthContextFacts.


Lemma authEffect_keeps_the_flag_honest_witness :
  let st := {| AuthContext.isAuthenticated := true;
               AuthContext.api := Api.constructor (Browser.Storage (Some "stale"));
               AuthContext.currentUser := None |} in
  AuthContext.hasToken (Api.localStorage (AuthContext.api st)) = true
  /\ AuthContext.isAuthenticated (AuthContext.authEffect true st) = false
  /\ Browser.persisted
       (Api.localStorage (AuthContext.api (AuthContext.authEffect true st)))
     = None.
Proof.
  intros st. split; [reflexivity |].
  destruct (proj2 (proj2 (authEffect_keeps_the_flag_honest true st))
              eq_refl eq_refl) as (Hflag & _ & Hp).
  split; [exact Hflag | exact Hp].
Defined.

(** ** One entry per habit *)

Section OneEntryPerHabit.
Import Browser HabitsPage HabitsView.

Variable renderedAt : Z.

Lemma habitId_patch hid completed item :
  habitId (patch hid completed item) = habitId item.
Proof. unfold patch. destruct (same_habit hid item); reflexivity. Qed.

Lemma habitIds_patch hid completed (items : list Item) :
  habitId <$> (patch hid completed <$> items) = habitId <$> items.
Proof.
  rewrite <- list_fmap_compose. apply list_fmap_ext.
  intros i x _. apply habitId_patch.
Qed.

(** X23. The list that the query builds has one entry per habit, in the order of
    the habits, so no habit occurs twice in it when the habit ids are
    distinct; and the optimistic update keeps it that way: a list without a
    repeated habit has none after the toggle either. *)
Theorem one_entry_per_habit :
  (forall data resolved,
     habitId <$> allCompletions_queryFn (Some data) resolved = id <$> data)
  /\ (forall (w : World) items hid completed,
        cached w = Some items ->
        NoDup (habitId <$> items) ->
        exists result,
          cached (fst (onMutate renderedAt hid completed w)) = Some result
          /\ NoDup (habitId <$> result)).
Proof.
  split.
  - intros data resolved. unfold allCompletions_queryFn.
    rewrite <- list_fmap_compose. apply list_fmap_ext. intros i h _. reflexivity.
  - intros w items hid completed Hc Hnd.
    exists (optimistic renderedAt hid completed items).
    split; [apply onMutate_cached_value; exact Hc |].
    unfold optimistic.
    destruct (List.find (same_habit hid) items) as [x |] eqn:E.
    + rewrite habitIds_patch. exact Hnd.
    + rewrite fmap_app, habitIds_patch. cbn [fmap list_fmap new_item habitId].
      apply NoDup_app. split; [exact Hnd |]. split; [| apply NoDup_singleton].
      intros h Hin Hnew. apply list_elem_of_singleton in Hnew. subst h.
      apply list_elem_of_fmap in Hin as (y & Hy & Hin).
      exact (proj1 (find_none_iff hid items) E y Hin (eq_sym Hy)).
Qed.

(** X24. With distinct habit ids, the page shows a habit of the list as completed
    exactly when the first completion that the server returned for it today
    says so; a habit for which the server returned none is not completed. *)
Theorem query_result_is_read_back (w : World) data resolved h :
  cached w = Some (allCompletions_queryFn (Some data) resolved) ->
  NoDup (id <$> data) ->
  h ∈ data ->
  isHabitCompletedToday w (id h) =
    match resolved h ≫= head with
    | Some c => default false (hc_completed c)
    | None => false
    end.
Proof.
  intros Hc Hnd Hin.
  rewrite (isHabitCompletedToday_cached w _ (id h) Hc).
  unfold allCompletions_queryFn.
  assert (Hfind : List.find (same_habit (id h))
                    ((fun h0 => {| habitId := id h0;
                                   completion := resolved h0 ≫= head |}) <$> data)
                  = Some {| habitId := id h; completion := resolved h ≫= head |}).
  { clear Hc. induction data as [| x data IH]; [inversion Hin |].
    rewrite fmap_cons. cbn [List.find]. unfold same_habit at 1. cbn [habitId].
    rewrite fmap_cons in Hnd. apply NoDup_cons in Hnd as [Hx Hnd].
    apply elem_of_cons in Hin as [-> | Hin].
    - rewrite String.eqb_refl. reflexivity.
    - destruct (String.eqb_spec (id x) (id h)) as [Heq | Hne].
      + exfalso. apply Hx. rewrite Heq. apply list_elem_of_fmap. eauto.
      + apply IH; assumption. }
  rewrite Hfind. reflexivity.
Qed.

End OneEntryPerHabit.

Lemma one_entry_per_habit_witness :
  let run := {| HabitsPage.habitId := "run"; HabitsPage.completion := None |} in
  let w := {| HabitsPage.api := Api.constructor (Browser.Storage None);
              HabitsPage.arrays := [[run]];
              HabitsPage.allCompletions := Some 0%nat |} in
  exists result,
    HabitsPage.cached (fst (HabitsPage.onMutate 0 "read" true w)) = Some result
    /\ NoDup (HabitsPage.habitId <$> result).
Proof.
  intros run w.
  apply (proj2 (one_entry_per_habit 0) w [run] "read" true eq_refl).
  apply NoDup_singleton.
Defined.

Lemma query_result_is_read_back_witness :
  let run := {| HabitsView.id := "run"; HabitsView.schedule_type := HabitsView.daily;
                HabitsView.isActive := true |} in
  let done := {| HabitsPage.hc_id := Some "c1"; HabitsPage.hc_habitId := Some "run";
                 HabitsPage.hc_date := Some "2024-01-01";
                 HabitsPage.hc_completed := Some true;
                 HabitsPage.hc_value := None; HabitsPage.hc_notes := None;
                 HabitsPage.hc_createdAt := Some "2024-01-01T08:00:00.000Z" |} in
  let resolved := fun _ : HabitsView.Habit => Some [done] in
  let w := {| HabitsPage.api := Api.constructor (Browser.Storage None);
              HabitsPage.arrays :=
                [HabitsView.allCompletions_queryFn (Some [run]) resolved];
              HabitsPage.allCompletions := Some 0%nat |} in
  HabitsView.isHabitCompletedToday w "run" = true.
Proof.
  intros run done resolved w.
  exact (query_result_is_read_back w [run] resolved run eq_refl
           ltac:(apply NoDup_singleton) ltac:(apply list_elem_of_here)).
Defined.

(** ** The two ways of writing today's date *)

Section TodayFacts.
Import JsDate JsString HabitsPage.

Lemma occurs_app c (a b : string) :
  occurs c (a +:+ b) = occurs c a || occurs c b.
Proof.
  induction a as [| x a IH]; [reflexivity |].
  change (occurs c (String x (a +:+ b)) = occurs c (String x a) || occurs c b).
  cbn [occurs]. rewrite IH, orb_assoc. reflexivity.
Qed.

(** The first piece of a split is what stands before the first separator. *)
Lemma split_hd sep (a b : string) :
  occurs sep a = false ->
  hd EmptyString (split sep (a +:+ String sep b)) = a.
Proof.
  induction a as [| x a IH]; intros Ha.
  - change (hd EmptyString (split sep (String sep b)) = EmptyString).
    cbn [split]. rewrite Ascii.eqb_refl. reflexivity.
  - cbn [occurs] in Ha. apply orb_false_iff in Ha as [Hx Ha].
    change (hd EmptyString (split sep (String x (a +:+ String sep b)))
            = String x a).
    cbn [split]. rewrite Hx. specialize (IH Ha).
    destruct (split sep (a +:+ String sep b)) as [| piece rest];
      cbn [hd] in *; subst; reflexivity.
Qed.

Lemma pretty_N_char_not_T d : Ascii.eqb (pretty_N_char d) "T" = false.
Proof.
  destruct d as [| p]; [reflexivity |].
  do 4 (try destruct p as [p | p |]); reflexivity.
Qed.

Lemma pretty_N_go_no_T x s :
  occurs "T" (pretty_N_go x s) = occurs "T" s.
Proof.
  revert s. induction (N.lt_wf_0 x) as [x _ IH]; intros s.
  destruct (N.eq_dec x 0%N) as [-> | Hx]; [rewrite pretty_N_go_0; reflexivity |].
  rewrite pretty_N_go_step by lia.
  rewrite IH by (apply N.div_lt; lia).
  cbn [occurs]. rewrite pretty_N_char_not_T. reflexivity.
Qed.

Lemma pretty_Z_no_T (z : Z) : occurs "T" (pretty z) = false.
Proof.
  destruct z as [| p | p]; [reflexivity | |].
  - change (occurs "T" (pretty (Npos p)) = false).
    unfold pretty, pretty_N. destruct (decide (Npos p = 0%N)); [reflexivity |].
    apply pretty_N_go_no_T.
  - change (occurs "T" ("-" +:+ pretty (Npos p)) = false).
    rewrite occurs_app. unfold pretty, pretty_N.
    destruct (decide (Npos p = 0%N)); [reflexivity |].
    rewrite pretty_N_go_no_T. reflexivity.
Qed.

Lemma zeros_no_T n : occurs "T" (zeros n) = false.
Proof. induction n as [| n IH]; [reflexivity | exact IH]. Qed.

Lemma pad_no_T width n : occurs "T" (pad width n) = false.
Proof. unfold pad. rewrite occurs_app, zeros_no_T, pretty_Z_no_T. reflexivity. Qed.

Lemma date_string_no_T y m d : occurs "T" (date_string y m d) = false.
Proof.
  unfold date_string, year_string.
  repeat match goal with
         | |- context [if ?b then _ else _] => destruct b
         end;
    rewrite !occurs_app, !pad_no_T; reflexivity.
Qed.

(** X25. For an instant whose year in UTC is between 1 and 9999, [today]
    of the habits page is the calendar date of the instant in UTC, whatever
    the client's clock: it is what [HabitCard] computes on a client at UTC,
    and on any client it is [HabitCard]'s date whenever the instant falls on
    the same day in UTC and on the client's clock.  (Outside these years the
    two write the year differently.) *)
Theorem today_is_the_date_in_utc (t : Z) :
  1 <= getUTCFullYear t <= 9999 ->
  today t = HabitCard_today 0 t
  /\ forall utcOffset,
       (t + utcOffset * 60000) / msPerDay = t / msPerDay ->
       today t = HabitCard_today utcOffset t.
Proof.
  intros Hyear.
  assert (H : forall utcOffset,
             (t + utcOffset * 60000) / msPerDay = t / msPerDay ->
             today t = HabitCard_today utcOffset t).
  { intros utcOffset Hday.
    unfold today, HabitCard_today, format_yyyy_MM_dd, toISOString.
    rewrite Hday. unfold getUTCFullYear in Hyear.
    destruct (civil_from_days (t / msPerDay)) as [[y m] d].
    cbn [fst] in Hyear.
    assert (Hdate : date_string y m d
                    = pad 4 (if 0 <? y then y else 1 - y)
                      +:+ "-" +:+ pad 2 m +:+ "-" +:+ pad 2 d).
    { unfold date_string, year_string.
      destruct (Z.leb_spec 0 y); [| lia]. destruct (Z.leb_spec y 9999); [| lia].
      destruct (Z.ltb_spec 0 y); [| lia]. reflexivity. }
    rewrite <- Hdate.
    change ("T" : string) with (String "T"%char EmptyString).
    rewrite <- string_app_assoc.
    match goal with
    | |- hd _ (split _ ((?a +:+ String _ EmptyString) +:+ ?r)) = _ =>
        rewrite (string_app_assoc a (String "T"%char EmptyString) r)
    end.
    apply split_hd. apply date_string_no_T. }
  split; [apply H; f_equal; lia | exact H].
Qed.

Lemma today_is_the_date_in_utc_witness :
  1 <= JsDate.getUTCFullYear 1704137400000 <= 9999
  /\ HabitsPage.today 1704137400000
     = HabitsPage.HabitCard_today (-300) 1704137400000.
Proof.
  assert (Hyear : 1 <= JsDate.getUTCFullYear 1704137400000 <= 9999)
    by (vm_compute; split; discriminate).
  split; [exact Hyear |].
  apply (proj2 (today_is_the_date_in_utc 1704137400000 Hyear) (-300)).
  vm_compute. reflexivity.
Defined.

End TodayFacts.
